(** * resticprofile: schedule translation (systemd check, Windows task builder)

    A shallow embedding of [loadSchedules] (systemd target) and of the
    Windows Task Scheduler builder ([NewTask], [AddSchedules] and the
    trigger synthesizers, [compileDifferences], [getRepetitionDuration],
    the field conversions), followed by the properties of the
    specification that concern them. *)

From Stdlib Require Import String.
From Stdlib Require Import ZArith QArith List Bool Lia Sorted.
Import ListNotations.
Open Scope Z_scope.

(** ** Go values *)

(** [time.Time] and [time.Duration].  Instants have second resolution
    (the calendar evaluator never produces a finer one), so an instant
    is a count of seconds on a uniform time line.  A [Duration] is an
    [int64] count of nanoseconds, as in Go. *)
Module GoTime.

Definition Time := Z.
Definition Duration := Z.

Definition Nanosecond : Duration := 1.
Definition Second : Duration := 1000000000 * Nanosecond.
Definition Minute : Duration := 60 * Second.
Definition Hour : Duration := 60 * Minute.

Definition minDuration : Duration := - 2 ^ 63.
Definition maxDuration : Duration := 2 ^ 63 - 1.

(** [t.Sub(u)]: the duration t-u, saturated to the [int64] range. *)
Definition Sub (t u : Time) : Duration :=
  let d := (t - u) * Second in
  if d >? maxDuration then maxDuration
  else if d <? minDuration then minDuration
  else d.

(** [t.Add(d)], for the whole-second durations the builder adds. *)
Definition Add (t : Time) (d : Duration) : Time := t + d / Second.

(** [d.Seconds()].  Go returns a float64; on the durations [Sub]
    produces here (whole seconds, or one of the two saturation
    bounds) the float is distinct for distinct durations, so the
    exact rational stands for it. *)
Definition Seconds (d : Duration) : Q := Qmake d 1000000000.

End GoTime.
Export GoTime.

(** [period.Period] of the external [rickb777/period] package.  A
    period is represented by the length of time it denotes, in
    seconds; [Normalise] only changes how a period is written. *)
Module period.

Definition Period := Z.

Definition NewHMS (hours minutes seconds : Z) : Period :=
  hours * 3600 + minutes * 60 + seconds.

Definition NewOf (d : Duration) : Period := Z.quot d Second.

Definition Between (t1 t2 : Time) : Period := t2 - t1.

Definition DurationApprox (p : Period) : Duration := p * Second.

Definition Normalise (p : Period) (precise : bool) : Period := p.

End period.

(** [len(s)] as a Go [int]. *)
Definition len {A : Type} (s : list A) : Z := Z.of_nat (length s).

(** Indexing a slice, [s[i]]: [None] stands for the run-time panic. *)
Definition index {A : Type} (s : list A) (i : Z) : option A :=
  if i <? 0 then None else nth_error s (Z.to_nat i).

(** ** Difference compiler *)

(** The first loop of [compileDifferences]:
    [differences[i] = recurrences[i+1].Sub(recurrences[i])]. *)
Fixpoint differencesOf (recurrences : list Time) : list Duration :=
  match recurrences with
  | r0 :: ((r1 :: _) as rest) => Sub r1 r0 :: differencesOf rest
  | _ => []
  end.

(** The second loop, with the running value of [previous]. *)
Fixpoint compactFrom (previous : Duration) (differences : list Duration)
  : list Duration :=
  match differences with
  | [] => []
  | difference :: rest =>
      if negb (Qeq_bool (Seconds difference) (Seconds previous))
      then difference :: compactFrom difference rest
      else compactFrom previous rest
  end.

(** [make([]time.Duration, len(recurrences)-1)] panics on the empty
    slice (negative length). *)
Definition compileDifferences (recurrences : list Time)
  : option (list Duration * list Duration) :=
  match recurrences with
  | [] => None
  | _ :: _ =>
      let differences := differencesOf recurrences in
      Some (differences, compactFrom 0 differences)
  end.

(** The spec's wording of [compact]: the differences with consecutive
    duplicates removed. *)
Fixpoint collapseRuns (differences : list Duration) : list Duration :=
  match differences with
  | [] => []
  | d :: rest =>
      match rest with
      | [] => [d]
      | d' :: _ => if d =? d' then collapseRuns rest else d :: collapseRuns rest
      end
  end.

(** ** Repetition duration *)

Definition getRepetitionDuration (start : Time) (recurrences : list Time)
  : option period.Period :=
  match index recurrences (len recurrences - 1) with
  | None => None
  | Some last =>
      let duration := period.Between start last in
      Some (if period.DurationApprox duration =? 1439 * Minute
            then period.NewHMS 0 1440 0
            else duration)
  end.

(** ** Field conversions *)

Record DaysOfWeek := {
  Sunday : bool; Monday : bool; Tuesday : bool; Wednesday : bool;
  Thursday : bool; Friday : bool; Saturday : bool
}.

(** The zero value: no weekday element present. *)
Definition noWeekDays : DaysOfWeek :=
  {| Sunday := false; Monday := false; Tuesday := false; Wednesday := false;
     Thursday := false; Friday := false; Saturday := false |}.

(** One turn of the [switch] in [convertWeekdays]. *)
Definition setWeekday (weekDays : DaysOfWeek) (weekday : Z) : DaysOfWeek :=
  let (su, mo, tu, we, th, fr, sa) := weekDays in
  if (weekday =? 0) || (weekday =? 7) then Build_DaysOfWeek true mo tu we th fr sa
  else if weekday =? 1 then Build_DaysOfWeek su true tu we th fr sa
  else if weekday =? 2 then Build_DaysOfWeek su mo true we th fr sa
  else if weekday =? 3 then Build_DaysOfWeek su mo tu true th fr sa
  else if weekday =? 4 then Build_DaysOfWeek su mo tu we true fr sa
  else if weekday =? 5 then Build_DaysOfWeek su mo tu we th true sa
  else if weekday =? 6 then Build_DaysOfWeek su mo tu we th fr true
  else weekDays.

Definition convertWeekdays (input : list Z) : DaysOfWeek :=
  if len input =? 0 then noWeekDays
  else fold_left setWeekday input noWeekDays.

(** Whether the value [v] occurs in [input]. *)
Definition occurs (v : Z) (input : list Z) : bool :=
  existsb (fun weekday => weekday =? v) input.

Record Months := {
  January : bool; February : bool; March : bool; April : bool;
  May : bool; June : bool; July : bool; August : bool;
  September : bool; October : bool; November : bool; December : bool
}.

Definition setMonth (months : Months) (month : Z) : Months :=
  let (m1, m2, m3, m4, m5, m6, m7, m8, m9, m10, m11, m12) := months in
  if month =? 1 then Build_Months true m2 m3 m4 m5 m6 m7 m8 m9 m10 m11 m12
  else if month =? 2 then Build_Months m1 true m3 m4 m5 m6 m7 m8 m9 m10 m11 m12
  else if month =? 3 then Build_Months m1 m2 true m4 m5 m6 m7 m8 m9 m10 m11 m12
  else if month =? 4 then Build_Months m1 m2 m3 true m5 m6 m7 m8 m9 m10 m11 m12
  else if month =? 5 then Build_Months m1 m2 m3 m4 true m6 m7 m8 m9 m10 m11 m12
  else if month =? 6 then Build_Months m1 m2 m3 m4 m5 true m7 m8 m9 m10 m11 m12
  else if month =? 7 then Build_Months m1 m2 m3 m4 m5 m6 true m8 m9 m10 m11 m12
  else if month =? 8 then Build_Months m1 m2 m3 m4 m5 m6 m7 true m9 m10 m11 m12
  else if month =? 9 then Build_Months m1 m2 m3 m4 m5 m6 m7 m8 true m10 m11 m12
  else if month =? 10 then Build_Months m1 m2 m3 m4 m5 m6 m7 m8 m9 true m11 m12
  else if month =? 11 then Build_Months m1 m2 m3 m4 m5 m6 m7 m8 m9 m10 true m12
  else if month =? 12 then Build_Months m1 m2 m3 m4 m5 m6 m7 m8 m9 m10 m11 true
  else months.

Definition convertMonths (input : list Z) : Months :=
  if len input =? 0
  then Build_Months true true true true true true true true true true true true
  else fold_left setMonth input
         (Build_Months false false false false false false
                       false false false false false false).

Record DaysOfMonth := { Day : list Z }.

Definition convertDaysOfMonth (input : list Z) : DaysOfMonth :=
  if len input =? 0
  then {| Day := map Z.of_nat (seq 1 31) |}
  else {| Day := input |}.

(** ** Calendar events *)

(** The [calendar] package is consumed through its methods only; an
    event is the record of what those methods answer.  Events are
    passed by pointer in Go; a nil event is outside the model. *)
Module calendar.

Record Value := {
  HasValue : bool;
  GetRangeValues : list Z
}.

Record Event := {
  AsTime : option Time;
  IsDaily : bool;
  IsWeekly : bool;
  IsMonthly : bool;
  Next : Time -> Time;
  GetAllInBetween : Time -> Time -> list Time;
  WeekDay : Value;
  Day : Value;
  Month : Value;
  String : string
}.

End calendar.

(** ** Windows task document *)

Record RegistrationInfo := {
  Date : string;
  Author : string;
  Description : string;
  URI : string;
  SecurityDescriptor : string
}.

Record TimeTrigger := { TT_StartBoundary : string }.

Record ScheduleByDay := { DaysInterval : Z }.

Record ScheduleByWeek := {
  WeeksInterval : Z;
  SBW_DaysOfWeek : DaysOfWeek
}.

Record ScheduleByMonth := {
  SBM_DaysOfMonth : DaysOfMonth;
  SBM_Months : Months
}.

Inductive Week := WeekFirst | WeekSecond | WeekThird | WeekFourth | WeekLast.

(** Modelled from the spec: the constant [AllWeeks] is declared outside
    the visible source; it is the full set First, Second, Third,
    Fourth, Last. *)
Definition AllWeeks : list Week :=
  [WeekFirst; WeekSecond; WeekThird; WeekFourth; WeekLast].

Record ScheduleByMonthDayOfWeek := {
  SBMD_DaysOfWeek : DaysOfWeek;
  SBMD_Weeks : list Week;
  SBMD_Months : Months
}.

Record RepetitionPattern := {
  Duration_ : period.Period;
  Interval : period.Period
}.

(** The four schedules and the repetition are pointers: [None] is nil. *)
Record CalendarTrigger := {
  StartBoundary : string;
  CT_ScheduleByDay : option ScheduleByDay;
  CT_ScheduleByWeek : option ScheduleByWeek;
  CT_ScheduleByMonth : option ScheduleByMonth;
  CT_ScheduleByMonthDayOfWeek : option ScheduleByMonthDayOfWeek;
  Repetition : option RepetitionPattern
}.

(** A nil slice and an empty one are both the empty list. *)
Record Triggers := {
  TimeTriggers : list TimeTrigger;
  CalendarTriggers : list CalendarTrigger
}.

Record Principal := {
  ID : string;
  UserId : string;
  LogonType : string;
  RunLevel : string
}.

Record Principals := { Principal_ : Principal }.

Record IdleSettings := {
  Idle_Duration : period.Period;
  WaitTimeout : period.Period;
  StopOnIdleEnd : bool
}.

Record Settings := {
  Compatibility : Z;
  DisallowStartIfOnBatteries : bool;
  Idle : IdleSettings;
  MultipleInstancesPolicy : string;
  Priority : Z;
  StopIfGoingOnBatteries : bool;
  UseUnifiedSchedulingEngine : bool
}.

Record ExecAction := {
  Command : string;
  Arguments_ : string;
  WorkingDirectory : string
}.

Record Actions := {
  Context_ : string;
  Exec : list ExecAction
}.

Record XMLName := { Space : string; Local_ : string }.

Record Task := {
  Task_XMLName : XMLName;
  Version : string;
  Xmlns : string;
  Task_RegistrationInfo : RegistrationInfo;
  Task_Triggers : Triggers;
  Task_Principals : Principals;
  Task_Settings : Settings;
  Task_Actions : Actions
}.

(** Assignments to [t.Triggers.TimeTrigger], [t.Triggers.CalendarTrigger]
    and [t.Actions.Exec]. *)
Definition setTimeTrigger (v : list TimeTrigger) (t : Task) : Task :=
  {| Task_XMLName := Task_XMLName t; Version := Version t; Xmlns := Xmlns t;
     Task_RegistrationInfo := Task_RegistrationInfo t;
     Task_Triggers := {| TimeTriggers := v;
                         CalendarTriggers := CalendarTriggers (Task_Triggers t) |};
     Task_Principals := Task_Principals t;
     Task_Settings := Task_Settings t;
     Task_Actions := Task_Actions t |}.

Definition setCalendarTrigger (v : list CalendarTrigger) (t : Task) : Task :=
  {| Task_XMLName := Task_XMLName t; Version := Version t; Xmlns := Xmlns t;
     Task_RegistrationInfo := Task_RegistrationInfo t;
     Task_Triggers := {| TimeTriggers := TimeTriggers (Task_Triggers t);
                         CalendarTriggers := v |};
     Task_Principals := Task_Principals t;
     Task_Settings := Task_Settings t;
     Task_Actions := Task_Actions t |}.

Definition setExec (v : list ExecAction) (t : Task) : Task :=
  {| Task_XMLName := Task_XMLName t; Version := Version t; Xmlns := Xmlns t;
     Task_RegistrationInfo := Task_RegistrationInfo t;
     Task_Triggers := Task_Triggers t;
     Task_Principals := Task_Principals t;
     Task_Settings := Task_Settings t;
     Task_Actions := {| Context_ := Context_ (Task_Actions t); Exec := v |} |}.

(** Constants and formats declared outside the visible source. *)
Record Constants := {
  taskSchema : string;
  taskSchemaVersion : string;
  author : string;
  ApplicationName : string;
  defaultPriority : Z;
  LogonTypeInteractiveToken : string;
  RunLevelDefault : string;
  TaskCompatibilityAT : Z;
  MultipleInstancesIgnoreNew : string;
  maxTriggers : Z;
  (** [t.Format(dateFormat)] *)
  Format : Time -> string
}.

(** ** The builder's effects *)

(** One call of [clog.Warningf]: the format and its arguments. *)
Inductive Arg := ArgS (s : string) | ArgD (n : Z).

Record LogEntry := { format : string; args : list Arg }.

(** The task being built, the warnings logged so far and the number of
    clock readings taken so far. *)
Record State := {
  task : Task;
  warnings : list LogEntry;
  clock : nat
}.

(** A method on [*Task]: it may panic ([None]) or return a value and
    the state it leaves. *)
Definition M (A : Type) : Type := State -> option (A * State).

Definition ret {A : Type} (a : A) : M A := fun s => Some (a, s).

Definition bind {A B : Type} (m : M A) (k : A -> M B) : M B :=
  fun s => match m s with
           | None => None
           | Some (a, s') => k a s'
           end.

Declare Scope go_scope.
Delimit Scope go_scope with go.
Notation "x <- m ;; k" := (bind m (fun x => k))
  (at level 61, m at next level, right associativity) : go_scope.
Notation "m ;;; k" := (bind m (fun _ => k))
  (at level 61, right associativity) : go_scope.

(** A value that may have panicked. *)
Definition orPanic {A : Type} (o : option A) : M A :=
  fun s => match o with None => None | Some a => Some (a, s) end.

Definition getTask : M Task := fun s => Some (task s, s).

Definition modifyTask (f : Task -> Task) : M unit :=
  fun s => Some (tt, {| task := f (task s); warnings := warnings s;
                        clock := clock s |}).

Definition Warningf (fmt : string) (a : list Arg) : M unit :=
  fun s => Some (tt, {| task := task s;
                        warnings := warnings s ++ [{| format := fmt; args := a |}];
                        clock := clock s |}).

(** How a loop body ends: falls through to the next turn, or returns
    from the enclosing function. *)
Inductive Flow := Continue | Return.

Fixpoint forRange {A : Type} (s : list A) (body : A -> M Flow) : M Flow :=
  match s with
  | [] => ret Continue
  | x :: rest =>
      bind (body x) (fun f =>
        match f with
        | Return => ret Return
        | Continue => forRange rest body
        end)
  end.

(** ** The builder *)

Definition NewTask (K : Constants) (currentUser : option string) (now : Time)
  : Task :=
  let userID := match currentUser with Some uid => uid | None => EmptyString end in
  {| Task_XMLName := {| Space := taskSchema K; Local_ := "Task" |};
     Version := taskSchemaVersion K;
     Xmlns := taskSchema K;
     Task_RegistrationInfo :=
       {| Date := Format K now; Author := ApplicationName K;
          Description := EmptyString; URI := EmptyString;
          SecurityDescriptor := EmptyString |};
     Task_Triggers := {| TimeTriggers := []; CalendarTriggers := [] |};
     Task_Principals :=
       {| Principal_ :=
            {| ID := author K; UserId := userID;
               LogonType := LogonTypeInteractiveToken K;
               RunLevel := RunLevelDefault K |} |};
     Task_Settings :=
       {| Compatibility := TaskCompatibilityAT K;
          DisallowStartIfOnBatteries := true;
          Idle := {| Idle_Duration := period.NewHMS 0 10 0;
                     WaitTimeout := period.NewHMS 1 0 0;
                     StopOnIdleEnd := true |};
          MultipleInstancesPolicy := MultipleInstancesIgnoreNew K;
          Priority := defaultPriority K;
          StopIfGoingOnBatteries := true;
          UseUnifiedSchedulingEngine := true |};
     Task_Actions := {| Context_ := author K; Exec := [] |} |}.

Section Builder.

Open Scope go_scope.

(** The constants of the package and the clock: [Now k] is what the
    (k+1)-th reading of [time.Now()] returns. *)
Variable K : Constants.
Variable Now : nat -> Time.

Definition timeNow : M Time :=
  fun s => Some (Now (clock s),
                 {| task := task s; warnings := warnings s;
                    clock := S (clock s) |}).

Definition AddExecAction (action : ExecAction) : M unit :=
  t <- getTask ;;
  match Exec (Task_Actions t) with
  | [] => modifyTask (setExec [action])
  | existing => modifyTask (setExec (existing ++ [action]))
  end.

Definition addTimeTrigger (triggerOnce : Time) : M unit :=
  let timeTrigger := {| TT_StartBoundary := Format K triggerOnce |} in
  t <- getTask ;;
  match TimeTriggers (Task_Triggers t) with
  | [] => modifyTask (setTimeTrigger [timeTrigger])
  | existing => modifyTask (setTimeTrigger (existing ++ [timeTrigger]))
  end.

Definition addCalendarTrigger (trigger : CalendarTrigger) : M unit :=
  t <- getTask ;;
  match CalendarTriggers (Task_Triggers t) with
  | [] => modifyTask (setCalendarTrigger [trigger])
  | existing => modifyTask (setCalendarTrigger (existing ++ [trigger]))
  end.

(** The warning both caps log, [recurrences] being the list in hand. *)
Definition tooManyTriggers (recurrences : list Time) : M unit :=
  Warningf
    "this task would need more than %d triggers (%d in total), please rethink your triggers definition"
    [ArgD (maxTriggers K); ArgD (len recurrences)].

Definition addDailyTrigger (schedule : calendar.Event) : M unit :=
  now <- timeNow ;;
  let start := calendar.Next schedule now in
  let recurrences :=
    calendar.GetAllInBetween schedule start (Add start (24 * Hour)) in
  if len recurrences =? 0 then
    Warningf "cannot convert schedule '%s' into a daily trigger"
             [ArgS (calendar.String schedule)]
  else if len recurrences =? 1 then
    r0 <- orPanic (index recurrences 0) ;;
    addCalendarTrigger
      {| StartBoundary := Format K r0;
         CT_ScheduleByDay := Some {| DaysInterval := 1 |};
         CT_ScheduleByWeek := None; CT_ScheduleByMonth := None;
         CT_ScheduleByMonthDayOfWeek := None; Repetition := None |}
  else
    dc <- orPanic (compileDifferences recurrences) ;;
    let compactDifferences := snd dc in
    if len compactDifferences =? 1 then
      c0 <- orPanic (index compactDifferences 0) ;;
      let interval := period.NewOf c0 in
      duration <- orPanic (getRepetitionDuration start recurrences) ;;
      addCalendarTrigger
        {| StartBoundary := Format K start;
           CT_ScheduleByDay := Some {| DaysInterval := 1 |};
           CT_ScheduleByWeek := None; CT_ScheduleByMonth := None;
           CT_ScheduleByMonthDayOfWeek := None;
           Repetition :=
             Some {| Duration_ := period.Normalise duration false;
                     Interval := period.Normalise interval false |} |}
    else if len recurrences >? maxTriggers K then
      tooManyTriggers recurrences
    else
      forRange recurrences (fun recurrence =>
        addCalendarTrigger
          {| StartBoundary := Format K recurrence;
             CT_ScheduleByDay := Some {| DaysInterval := 1 |};
             CT_ScheduleByWeek := None; CT_ScheduleByMonth := None;
             CT_ScheduleByMonthDayOfWeek := None; Repetition := None |} ;;;
        ret Continue) ;;;
      ret tt.

(** The [&ScheduleByWeek{...}] literal of the three weekly triggers. *)
Definition scheduleByWeek (schedule : calendar.Event) : option ScheduleByWeek :=
  Some {| WeeksInterval := 1;
          SBW_DaysOfWeek :=
            convertWeekdays
              (calendar.GetRangeValues (calendar.WeekDay schedule)) |}.

Definition addWeeklyTrigger (schedule : calendar.Event) : M unit :=
  now <- timeNow ;;
  let start := calendar.Next schedule now in
  let recurrences :=
    calendar.GetAllInBetween schedule start (Add start (24 * Hour)) in
  if len recurrences =? 0 then
    Warningf "cannot convert schedule '%s' into a weekly trigger"
             [ArgS (calendar.String schedule)]
  else if len recurrences =? 1 then
    r0 <- orPanic (index recurrences 0) ;;
    addCalendarTrigger
      {| StartBoundary := Format K r0;
         CT_ScheduleByDay := None;
         CT_ScheduleByWeek := scheduleByWeek schedule;
         CT_ScheduleByMonth := None;
         CT_ScheduleByMonthDayOfWeek := None; Repetition := None |}
  else
    dc <- orPanic (compileDifferences recurrences) ;;
    let compactDifferences := snd dc in
    if len compactDifferences =? 1 then
      c0 <- orPanic (index compactDifferences 0) ;;
      let interval := period.NewOf c0 in
      duration <- orPanic (getRepetitionDuration start recurrences) ;;
      addCalendarTrigger
        {| StartBoundary := Format K start;
           CT_ScheduleByDay := None;
           CT_ScheduleByWeek := scheduleByWeek schedule;
           CT_ScheduleByMonth := None;
           CT_ScheduleByMonthDayOfWeek := None;
           Repetition :=
             Some {| Duration_ := period.Normalise duration false;
                     Interval := period.Normalise interval false |} |}
    else if len recurrences >? maxTriggers K then
      tooManyTriggers recurrences
    else
      forRange recurrences (fun recurrence =>
        addCalendarTrigger
          {| StartBoundary := Format K recurrence;
             CT_ScheduleByDay := None;
             CT_ScheduleByWeek := scheduleByWeek schedule;
             CT_ScheduleByMonth := None;
             CT_ScheduleByMonthDayOfWeek := None; Repetition := None |} ;;;
        ret Continue) ;;;
      ret tt.

Definition addMonthlyTrigger (schedule : calendar.Event) : M unit :=
  now <- timeNow ;;
  let start := calendar.Next schedule now in
  let recurrences :=
    calendar.GetAllInBetween schedule start (Add start (24 * Hour)) in
  if len recurrences =? 0 then
    Warningf "cannot convert schedule '%s' into a monthly trigger"
             [ArgS (calendar.String schedule)]
  else if len recurrences >? maxTriggers K then
    tooManyTriggers recurrences
  else
    forRange recurrences (fun recurrence =>
      if calendar.HasValue (calendar.WeekDay schedule)
         && calendar.HasValue (calendar.Day schedule)
      then
        Warningf
          "task scheduler does not support a day of the month and a day of the week in the same trigger: %s"
          [ArgS (calendar.String schedule)] ;;;
        ret Return
      else if calendar.HasValue (calendar.WeekDay schedule) then
        addCalendarTrigger
          {| StartBoundary := Format K recurrence;
             CT_ScheduleByDay := None; CT_ScheduleByWeek := None;
             CT_ScheduleByMonth := None;
             CT_ScheduleByMonthDayOfWeek :=
               Some {| SBMD_DaysOfWeek :=
                         convertWeekdays
                           (calendar.GetRangeValues (calendar.WeekDay schedule));
                       SBMD_Weeks := AllWeeks;
                       SBMD_Months :=
                         convertMonths
                           (calendar.GetRangeValues (calendar.Month schedule)) |};
             Repetition := None |} ;;;
        ret Continue
      else
        addCalendarTrigger
          {| StartBoundary := Format K recurrence;
             CT_ScheduleByDay := None; CT_ScheduleByWeek := None;
             CT_ScheduleByMonth :=
               Some {| SBM_DaysOfMonth :=
                         convertDaysOfMonth
                           (calendar.GetRangeValues (calendar.Day schedule));
                       SBM_Months :=
                         convertMonths
                           (calendar.GetRangeValues (calendar.Month schedule)) |};
             CT_ScheduleByMonthDayOfWeek := None;
             Repetition := None |} ;;;
        ret Continue) ;;;
    ret tt.

Definition AddSchedules (schedules : list calendar.Event) : M unit :=
  forRange schedules (fun schedule =>
    match calendar.AsTime schedule with
    | Some triggerOnce => addTimeTrigger triggerOnce ;;; ret Continue
    | None =>
        if calendar.IsDaily schedule then
          addDailyTrigger schedule ;;; ret Continue
        else if calendar.IsWeekly schedule then
          addWeeklyTrigger schedule ;;; ret Continue
        else if calendar.IsMonthly schedule then
          addMonthlyTrigger schedule ;;; ret Continue
        else
          Warningf
            "cannot convert schedule '%s' into a task scheduler equivalent"
            [ArgS (calendar.String schedule)] ;;;
          ret Continue
    end) ;;;
  ret tt.

(** A sequence of calls of [AddSchedules] on the same task. *)
Fixpoint AddSchedulesCalls (calls : list (list calendar.Event)) : M unit :=
  match calls with
  | [] => ret tt
  | schedules :: rest => AddSchedules schedules ;;; AddSchedulesCalls rest
  end.

End Builder.

(** ** Vocabulary of the properties *)

(** A trigger carries [DaysOfMonth] through [ScheduleByMonth], and
    [DaysOfWeek] through [ScheduleByWeek] or [ScheduleByMonthDayOfWeek]. *)
Definition carriesDaysOfMonth (c : CalendarTrigger) : bool :=
  match CT_ScheduleByMonth c with Some _ => true | None => false end.

Definition carriesDaysOfWeek (c : CalendarTrigger) : bool :=
  match CT_ScheduleByWeek c, CT_ScheduleByMonthDayOfWeek c with
  | None, None => false
  | _, _ => true
  end.

Definition exclusive (c : CalendarTrigger) : bool :=
  negb (carriesDaysOfMonth c && carriesDaysOfWeek c).

(** The repetition detector of the spec: a list of at least two
    instants is uniform when its compact differences have one element,
    irregular otherwise. *)
Definition uniform (recurrences : list Time) : bool :=
  match compileDifferences recurrences with
  | Some (_, compact) => len compact =? 1
  | None => false
  end.

Definition irregular (recurrences : list Time) : bool :=
  (2 <=? len recurrences) && negb (uniform recurrences).

(** Everything of a task but its triggers. *)
Definition sameFrame (t t' : Task) : Prop :=
  Task_XMLName t' = Task_XMLName t /\
  Version t' = Version t /\
  Xmlns t' = Xmlns t /\
  Task_RegistrationInfo t' = Task_RegistrationInfo t /\
  Task_Principals t' = Task_Principals t /\
  Task_Settings t' = Task_Settings t /\
  Task_Actions t' = Task_Actions t.

(** From [s] to [s'] the two trigger lists and the log have grown at
    the end by [ts], [cs] and [ws], and nothing else of the task has
    changed. *)
Record Grows (s s' : State) (ts : list TimeTrigger)
  (cs : list CalendarTrigger) (ws : list LogEntry) : Prop := {
  grows_time :
    TimeTriggers (Task_Triggers (task s'))
      = TimeTriggers (Task_Triggers (task s)) ++ ts;
  grows_calendar :
    CalendarTriggers (Task_Triggers (task s'))
      = CalendarTriggers (Task_Triggers (task s)) ++ cs;
  grows_warnings : warnings s' = warnings s ++ ws;
  grows_frame : sameFrame (task s) (task s')
}.

(** The state after one clock reading and one warning: the task is
    the same. *)
Definition warned (s : State) (w : LogEntry) : State :=
  {| task := task s; warnings := warnings s ++ [w]; clock := S (clock s) |}.

(** The warning logged when the cap is exceeded. *)
Definition tooManyTriggersEntry (K : Constants) (recurrences : list Time)
  : LogEntry :=
  {| format :=
       "this task would need more than %d triggers (%d in total), please rethink your triggers definition";
     args := [ArgD (maxTriggers K); ArgD (len recurrences)] |}.

(** Constants and events for concrete runs: a cap of 2 triggers, and
    an event that answers the given class and recurrences, its next
    firing being the first recurrence. *)
Definition exampleConstants : Constants :=
  {| taskSchema := "http://schemas.microsoft.com/windows/2004/02/mit/task";
     taskSchemaVersion := "1.4";
     author := "Author";
     ApplicationName := "resticprofile";
     defaultPriority := 8;
     LogonTypeInteractiveToken := "InteractiveToken";
     RunLevelDefault := "LeastPrivilege";
     TaskCompatibilityAT := 1;
     MultipleInstancesIgnoreNew := "IgnoreNew";
     maxTriggers := 2;
     Format := fun t => if t =? 0 then "0"%string else "t"%string |}.

Definition exampleEvent (daily weekly monthly : bool)
  (weekday day : calendar.Value) (recurrences : list Time) : calendar.Event :=
  {| calendar.AsTime := None;
     calendar.IsDaily := daily;
     calendar.IsWeekly := weekly;
     calendar.IsMonthly := monthly;
     calendar.Next := fun t => hd t recurrences;
     calendar.GetAllInBetween := fun _ _ => recurrences;
     calendar.WeekDay := weekday;
     calendar.Day := day;
     calendar.Month :=
       {| calendar.HasValue := false; calendar.GetRangeValues := [] |};
     calendar.String := "example" |}.

Definition exampleState : State :=
  {| task := NewTask exampleConstants None 0; warnings := []; clock := 0 |}.

(** [m] never panics, and from any state it only grows the state, by
    calendar triggers that satisfy [P]. *)
Definition Safe {A : Type} (P : CalendarTrigger -> Prop) (m : M A) : Prop :=
  forall s, exists a s' ts cs ws,
    m s = Some (a, s') /\ Grows s s' ts cs ws /\ Forall P cs.

(** ** Systemd target *)

Module systemd.

(** Go [error] values this function returns: the one built by
    [errors.New], or whatever [cmd.Run()] returned. *)
Inductive error (RunErr : Type) :=
| errorString (s : string)
| runError (err : RunErr).
Arguments errorString {RunErr} s.
Arguments runError {RunErr} err.

Definition errors_New {RunErr : Type} (text : string) : error RunErr :=
  errorString text.

(** What the function does to the outside: the header it prints and the
    analyzer processes it runs. *)
Inductive IO :=
| Printf (index total : Z)
| Run (schedule : string).

(** The schedules passed to the analyzer, in order. *)
Fixpoint ran (trace : list IO) : list string :=
  match trace with
  | [] => []
  | Printf _ _ :: rest => ran rest
  | Run schedule :: rest => schedule :: ran rest
  end.

Section Analyzer.

(** The external analyzer: given the schedules it was run on before
    (during this call) and the schedule to analyse, [None] when
    [cmd.Run()] returns nil, the error otherwise. *)
Variable RunErr : Type.
Variable analyze : list string -> string -> option RunErr.

(** The [for index, schedule := range schedules] loop from turn [index]
    on, [trace] being what has happened so far. *)
Fixpoint loadLoop (total index : Z) (schedules : list string)
  (events : list calendar.Event) (trace : list IO)
  : (list calendar.Event * option (error RunErr)) * list IO :=
  match schedules with
  | [] => ((events, None), trace)
  | schedule :: rest =>
      if String.eqb schedule EmptyString then
        ((events, Some (errors_New "empty schedule")), trace)
      else
        let trace := trace ++ [Printf (index + 1) total] in
        let err := analyze (ran trace) schedule in
        let trace := trace ++ [Run schedule] in
        match err with
        | Some err => ((events, Some (runError err)), trace)
        | None => loadLoop total (index + 1) rest events trace
        end
  end.

Definition loadSchedules (schedules : list string)
  : (list calendar.Event * option (error RunErr)) * list IO :=
  let events := [] in
  loadLoop (len schedules) 0 schedules events [].

(** The spec's view of the sequence: the first schedule, by index, that
    is empty or that the analyzer rejects, with the error that stops
    the sequence; [history] holds the schedules analysed before. *)
Definition later (failure : option (nat * error RunErr))
  : option (nat * error RunErr) :=
  match failure with
  | None => None
  | Some (i, e) => Some (S i, e)
  end.

Fixpoint firstFailure (history : list string) (schedules : list string)
  : option (nat * error RunErr) :=
  match schedules with
  | [] => None
  | schedule :: rest =>
      if String.eqb schedule EmptyString
      then Some (O, errorString "empty schedule")
      else match analyze history schedule with
           | Some err => Some (O, runError err)
           | None => later (firstFailure (history ++ [schedule]) rest)
           end
  end.

(** The schedules the analyzer is run on, given where the sequence
    stops: all of them, those before the empty one, or those up to and
    including the rejected one. *)
Definition analysed (schedules : list string)
  (failure : option (nat * error RunErr)) : list string :=
  match failure with
  | None => schedules
  | Some (i, errorString _) => firstn i schedules
  | Some (i, runError _) => firstn (S i) schedules
  end.

End Analyzer.

Arguments loadLoop {RunErr}.
Arguments loadSchedules {RunErr}.
Arguments later {RunErr}.
Arguments firstFailure {RunErr}.
Arguments analysed {RunErr}.

End systemd.

(** An analyzer that rejects the schedule "bad" with exit status 1 and
    accepts every other one. *)
Definition rejectBad (history : list string) (schedule : string) : option Z :=
  if String.eqb schedule "bad" then Some 1 else None.

(** ** Vocabulary of the further properties *)

(** The calendar triggers the synthesizers build. *)
Definition dailyTrigger (K : Constants) (boundary : Time)
  (repetition : option RepetitionPattern) : CalendarTrigger :=
  {| StartBoundary := Format K boundary;
     CT_ScheduleByDay := Some {| DaysInterval := 1 |};
     CT_ScheduleByWeek := None; CT_ScheduleByMonth := None;
     CT_ScheduleByMonthDayOfWeek := None;
     Repetition := repetition |}.

Definition weeklyTrigger (K : Constants) (schedule : calendar.Event)
  (boundary : Time) (repetition : option RepetitionPattern) : CalendarTrigger :=
  {| StartBoundary := Format K boundary;
     CT_ScheduleByDay := None;
     CT_ScheduleByWeek :=
       Some {| WeeksInterval := 1;
               SBW_DaysOfWeek :=
                 convertWeekdays
                   (calendar.GetRangeValues (calendar.WeekDay schedule)) |};
     CT_ScheduleByMonth := None;
     CT_ScheduleByMonthDayOfWeek := None;
     Repetition := repetition |}.

Definition monthlyByWeekdayTrigger (K : Constants) (schedule : calendar.Event)
  (boundary : Time) : CalendarTrigger :=
  {| StartBoundary := Format K boundary;
     CT_ScheduleByDay := None; CT_ScheduleByWeek := None;
     CT_ScheduleByMonth := None;
     CT_ScheduleByMonthDayOfWeek :=
       Some {| SBMD_DaysOfWeek :=
                 convertWeekdays
                   (calendar.GetRangeValues (calendar.WeekDay schedule));
               SBMD_Weeks := AllWeeks;
               SBMD_Months :=
                 convertMonths
                   (calendar.GetRangeValues (calendar.Month schedule)) |};
     Repetition := None |}.

Definition monthlyByDateTrigger (K : Constants) (schedule : calendar.Event)
  (boundary : Time) : CalendarTrigger :=
  {| StartBoundary := Format K boundary;
     CT_ScheduleByDay := None; CT_ScheduleByWeek := None;
     CT_ScheduleByMonth :=
       Some {| SBM_DaysOfMonth :=
                 convertDaysOfMonth
                   (calendar.GetRangeValues (calendar.Day schedule));
               SBM_Months :=
                 convertMonths
                   (calendar.GetRangeValues (calendar.Month schedule)) |};
     CT_ScheduleByMonthDayOfWeek := None;
     Repetition := None |}.

(** [n] instants from [t0] on, [d] seconds apart. *)
Fixpoint progression (t0 d : Z) (n : nat) : list Time :=
  match n with
  | O => []
  | S n' => t0 :: progression (t0 + d) d n'
  end.

(** [l] keeps some of the elements of [l'], in their order. *)
Inductive Subsequence {A : Type} : list A -> list A -> Prop :=
| Subsequence_nil : Subsequence [] []
| Subsequence_keep x l l' : Subsequence l l' -> Subsequence (x :: l) (x :: l')
| Subsequence_drop x l l' : Subsequence l l' -> Subsequence l (x :: l').

(** What one event may leave behind: triggers and no warning, or one
    warning and no trigger; at most one time trigger, and calendar
    triggers within the cap (one at least being always allowed). *)
Definition EventOutcome (K : Constants) (ts : list TimeTrigger)
  (cs : list CalendarTrigger) (ws : list LogEntry) : Prop :=
  ((ws = [] /\ (1 <= length ts + length cs)%nat) \/
   (ts = [] /\ cs = [] /\ exists w, ws = [w])) /\
  (length ts <= 1)%nat /\
  len cs <= Z.max 1 (maxTriggers K).

(** The example constants with another cap, and an event that is a
    point in time. *)
Definition withMaxTriggers (K : Constants) (cap : Z) : Constants :=
  {| taskSchema := taskSchema K;
     taskSchemaVersion := taskSchemaVersion K;
     author := author K;
     ApplicationName := ApplicationName K;
     defaultPriority := defaultPriority K;
     LogonTypeInteractiveToken := LogonTypeInteractiveToken K;
     RunLevelDefault := RunLevelDefault K;
     TaskCompatibilityAT := TaskCompatibilityAT K;
     MultipleInstancesIgnoreNew := MultipleInstancesIgnoreNew K;
     maxTriggers := cap;
     Format := Format K |}.

Definition exampleTimeEvent (t : Time) : calendar.Event :=
  {| calendar.AsTime := Some t;
     calendar.IsDaily := true;
     calendar.IsWeekly := false;
     calendar.IsMonthly := false;
     calendar.Next := fun _ => t;
     calendar.GetAllInBetween := fun _ _ => [t];
     calendar.WeekDay :=
       {| calendar.HasValue := false; calendar.GetRangeValues := [] |};
     calendar.Day :=
       {| calendar.HasValue := false; calendar.GetRangeValues := [] |};
     calendar.Month :=
       {| calendar.HasValue := false; calendar.GetRangeValues := [] |};
     calendar.String := "once" |}.

Definition anyValue : calendar.Value :=
  {| calendar.HasValue := false; calendar.GetRangeValues := [] |}.

(** A calendar trigger as the Task Scheduler schema wants it: exactly
    one of the four schedules, at interval 1 for the daily and the
    weekly one, and a repetition pattern only with those two. *)
Definition isNone {A : Type} (o : option A) : bool :=
  match o with None => true | Some _ => false end.

Definition wellFormed (c : CalendarTrigger) : bool :=
  match CT_ScheduleByDay c, CT_ScheduleByWeek c,
        CT_ScheduleByMonth c, CT_ScheduleByMonthDayOfWeek c with
  | Some d, None, None, None => DaysInterval d =? 1
  | None, Some w, None, None => WeeksInterval w =? 1
  | None, None, Some _, None => isNone (Repetition c)
  | None, None, None, Some _ => isNone (Repetition c)
  | _, _, _, _ => false
  end.

(** The instants rebuilt from the first one and the differences. *)
Fixpoint rebuild (t : Time) (differences : list Duration) : list Time :=
  match differences with
  | [] => [t]
  | d :: rest => t :: rebuild (t + d / Second) rest
  end.

(** The state with the list of exec actions replaced. *)
Definition withExec (v : list ExecAction) (s : State) : State :=
  {| task := setExec v (task s); warnings := warnings s; clock := clock s |}.

(** [m] neither reads nor writes the exec actions: run from a state
    with other actions, it does the same and leaves those actions. *)
Definition IgnoresActions {A : Type} (m : M A) : Prop :=
  forall v s,
    m (withExec v s) =
      match m s with
      | Some (a, s') => Some (a, withExec v s')
      | None => None
      end.

(** The calls of a list of [AddExecAction], one after the other. *)
Fixpoint AddExecActions (actions : list ExecAction) : M unit :=
  match actions with
  | [] => ret tt
  | action :: rest => bind (AddExecAction action) (fun _ => AddExecActions rest)
  end.

(** The trace of a run of the analyzer on [schedules], one after the
    other, from turn [index] on: each header, then the process. *)
Fixpoint headersAndRuns (total index : Z) (schedules : list string)
  : list systemd.IO :=
  match schedules with
  | [] => []
  | schedule :: rest =>
      systemd.Printf (index + 1) total :: systemd.Run schedule
        :: headersAndRuns total (index + 1) rest
  end.

(** ** Console logger *)

Module clog.

(** [LogLevel] is an [int]; the five constants are 0..4. *)
Definition LogLevel := Z.

Definition NoLevel : LogLevel := 0.
Definition DebugLevel : LogLevel := 1.
Definition InfoLevel : LogLevel := 2.
Definition WarningLevel : LogLevel := 3.
Definition ErrorLevel : LogLevel := 4.

Definition numLevels : Z := 5.

Definition getLevelName (level : LogLevel) : string :=
  if level =? DebugLevel then "DEBUG"
  else if level =? InfoLevel then "INFO "
  else if level =? WarningLevel then "WARN "
  else if level =? ErrorLevel then "ERROR"
  else "     ".

(** The attributes of [fatih/color] the logger uses; a colour is the
    list of attributes given to [color.New], and a [*color.Color] is
    [None] when nil. *)
Inductive Attribute :=
| Bold | FgGreen | FgCyan | FgMagenta | FgRed
| FgHiGreen | FgHiCyan | FgHiMagenta | FgHiRed.

Definition Color := list Attribute.

Definition color_New (attributes : list Attribute) : option Color :=
  Some attributes.

(** [[numLevels]*color.Color], by level. *)
Definition Levels := list (option Color).

(** The zero value of the array. *)
Definition noLevels : Levels := [None; None; None; None; None].

(** [map[string][numLevels]*color.Color] with its keys in the order of
    the literal; indexing a missing key gives the zero value. *)
Definition ColorMaps := list (string * Levels).

Fixpoint lookup (m : ColorMaps) (key : string) : option Levels :=
  match m with
  | [] => None
  | (k, v) :: rest => if String.eqb k key then Some v else lookup rest key
  end.

Definition mapIndex (m : ColorMaps) (key : string) : Levels :=
  match lookup m key with Some v => v | None => noLevels end.

Record ConsoleLog := {
  colorMaps : ColorMaps;
  levelMap : Levels
}.

Definition init (l : ConsoleLog) : ConsoleLog :=
  let maps :=
    [ ("none"%string,
       [None; None; None; color_New [Bold]; color_New [Bold]]);
      ("light"%string,
       [None; color_New [FgGreen]; color_New [FgCyan];
        color_New [FgMagenta; Bold]; color_New [FgRed; Bold]]);
      ("dark"%string,
       [None; color_New [FgHiGreen]; color_New [FgHiCyan];
        color_New [FgHiMagenta; Bold]; color_New [FgHiRed; Bold]]) ] in
  {| colorMaps := maps; levelMap := mapIndex maps "light" |}.

Definition NewConsoleLog : ConsoleLog :=
  init {| colorMaps := []; levelMap := noLevels |}.

Definition SetTheme (l : ConsoleLog) (theme : string) : ConsoleLog :=
  match lookup (colorMaps l) theme with
  | Some levels => {| colorMaps := colorMaps l; levelMap := levels |}
  | None => {| colorMaps := colorMaps l; levelMap := mapIndex (colorMaps l) "none" |}
  end.

(** What reaches the terminal: the calls of [c.Set()], [log.Println],
    [log.Printf] and [color.Unset()]; the package variable
    [color.NoColor] is part of the terminal's state. *)
Inductive Out :=
| ColorSet (c : Color)
| Println (v : list Arg)
| Printf (fmt : string) (v : list Arg)
| ColorUnset.

Record Terminal := {
  NoColor : bool;
  out : list Out
}.

Definition emit (o : Out) (t : Terminal) : Terminal :=
  {| NoColor := NoColor t; out := out t ++ [o] |}.

Definition Colorize (colorize : bool) (t : Terminal) : Terminal :=
  {| NoColor := negb colorize; out := out t |}.

Definition setColor (c : option Color) (t : Terminal) : Terminal :=
  match c with
  | Some c => emit (ColorSet c) t
  | None => t
  end.

Definition unsetColor (t : Terminal) : Terminal := emit ColorUnset t.

Definition message (c : option Color) (v : list Arg) (t : Terminal)
  : Terminal :=
  unsetColor (emit (Println v) (setColor c t)).

(** The string of one line feed. *)
Definition newline : string :=
  String (Ascii.Ascii false true false true false false false false)
         EmptyString.

Definition messagef (c : option Color) (fmt : string) (v : list Arg)
  (t : Terminal) : Terminal :=
  unsetColor (emit (Printf (fmt ++ newline) v) (setColor c t)).

(** [l.levelMap[level]] panics when [level] is not an index of the
    array. *)
Definition Log (l : ConsoleLog) (level : LogLevel) (v : list Arg)
  (t : Terminal) : option Terminal :=
  match index (levelMap l) level with
  | Some c => Some (message c v t)
  | None => None
  end.

Definition Logf (l : ConsoleLog) (level : LogLevel) (fmt : string)
  (v : list Arg) (t : Terminal) : option Terminal :=
  match index (levelMap l) level with
  | Some c => Some (messagef c fmt v t)
  | None => None
  end.

Definition Debug (l : ConsoleLog) := Log l DebugLevel.
Definition Debugf (l : ConsoleLog) := Logf l DebugLevel.
Definition Info (l : ConsoleLog) := Log l InfoLevel.
Definition Infof (l : ConsoleLog) := Logf l InfoLevel.
Definition Warning (l : ConsoleLog) := Log l WarningLevel.
Definition Warningf (l : ConsoleLog) := Logf l WarningLevel.
Definition Error (l : ConsoleLog) := Log l ErrorLevel.
Definition Errorf (l : ConsoleLog) := Logf l ErrorLevel.

(** A logger after any number of theme changes. *)
Definition themed (themes : list string) : ConsoleLog :=
  fold_left SetTheme themes NewConsoleLog.

(** The colours by level that the literal of [init] gives a theme, a
    name that is not a key standing for "none". *)
Definition paletteOf (theme : string) : Levels :=
  if String.eqb theme "light" then
    [None; Some [FgGreen]; Some [FgCyan];
     Some [FgMagenta; Bold]; Some [FgRed; Bold]]
  else if String.eqb theme "dark" then
    [None; Some [FgHiGreen]; Some [FgHiCyan];
     Some [FgHiMagenta; Bold]; Some [FgHiRed; Bold]]
  else
    [None; None; None; Some [Bold]; Some [Bold]].

(** Whether a colour pointer is set and has the attribute [Bold]. *)
Definition isBold (c : option Color) : bool :=
  match c with
  | Some attributes =>
      existsb (fun a => match a with Bold => true | _ => false end) attributes
  | None => false
  end.

End clog.

(** * Properties *)

(** ** Durations and slices *)

Lemma Seconds_eqb (a b : Duration) :
  Qeq_bool (Seconds a) (Seconds b) = (a =? b).
Proof.
  unfold Qeq_bool, Seconds; simpl.
  destruct (Z.eqb_spec a b) as [->|Hne].
  - apply Z.eqb_refl.
  - apply Z.eqb_neq. lia.
Qed.

Lemma Sub_pos (t u : Time) : u < t -> 0 < Sub t u.
Proof.
  intros H. unfold Sub, Second, Nanosecond, maxDuration, minDuration.
  destruct (Z.gtb_spec ((t - u) * (1000000000 * 1)) (2 ^ 63 - 1)); [lia|].
  destruct (Z.ltb_spec ((t - u) * (1000000000 * 1)) (- 2 ^ 63)); lia.
Qed.

Lemma Sub_whole_seconds (t u : Time) :
  u < t -> Second <= Sub t u <= (t - u) * Second.
Proof.
  intros H. unfold Sub, Second, Nanosecond, maxDuration, minDuration.
  destruct (Z.gtb_spec ((t - u) * (1000000000 * 1)) (2 ^ 63 - 1)); [lia|].
  destruct (Z.ltb_spec ((t - u) * (1000000000 * 1)) (- 2 ^ 63)); lia.
Qed.

Lemma len_nil {A : Type} : len (@nil A) = 0.
Proof. reflexivity. Qed.

Lemma len_cons {A : Type} (x : A) (l : list A) : len (x :: l) = len l + 1.
Proof. unfold len. simpl length. lia. Qed.

Lemma len_nonneg {A : Type} (l : list A) : 0 <= len l.
Proof. unfold len. lia. Qed.

Lemma index_0 {A : Type} (x : A) (l : list A) : index (x :: l) 0 = Some x.
Proof. reflexivity. Qed.

Lemma index_last {A : Type} (l : list A) (d : A) :
  l <> [] -> index l (len l - 1) = Some (last l d).
Proof.
  intros Hne. unfold index, len.
  destruct l as [|x l]; [congruence|].
  destruct (Z.ltb_spec (Z.of_nat (length (x :: l)) - 1) 0) as [H|H].
  - simpl length in H. lia.
  - replace (Z.to_nat (Z.of_nat (length (x :: l)) - 1)) with (length l)
      by (simpl length; lia).
    clear H Hne. revert x.
    induction l as [|y l IH]; intros x; [reflexivity|].
    simpl length. change (nth_error (x :: y :: l) (S (length l)))
      with (nth_error (y :: l) (length l)).
    rewrite IH. reflexivity.
Qed.

(** ** Difference compiler *)

Lemma differencesOf_length (recurrences : list Time) :
  length (differencesOf recurrences) = (length recurrences - 1)%nat.
Proof.
  induction recurrences as [|r0 [|r1 rest] IH]; try reflexivity.
  change (differencesOf (r0 :: r1 :: rest))
    with (Sub r1 r0 :: differencesOf (r1 :: rest)).
  simpl length in *. rewrite IH. lia.
Qed.

Lemma differencesOf_nth (recurrences : list Time) (k : nat) (a b : Time) :
  nth_error recurrences k = Some a ->
  nth_error recurrences (S k) = Some b ->
  nth_error (differencesOf recurrences) k = Some (Sub b a).
Proof.
  revert k. induction recurrences as [|r0 [|r1 rest] IH]; intros k Ha Hb.
  - destruct k; discriminate.
  - destruct k; simpl in Hb; [discriminate | destruct k; discriminate].
  - change (differencesOf (r0 :: r1 :: rest))
      with (Sub r1 r0 :: differencesOf (r1 :: rest)).
    destruct k as [|k].
    + simpl in *. congruence.
    + simpl nth_error in *. apply IH; assumption.
Qed.

Lemma differencesOf_positive (recurrences : list Time) :
  Sorted Z.lt recurrences -> Forall (fun d => 0 < d) (differencesOf recurrences).
Proof.
  induction recurrences as [|r0 [|r1 rest] IH]; intros Hs; try constructor.
  - apply Sub_pos. inversion Hs as [|? ? _ Hhd]; subst.
    inversion Hhd; subst. assumption.
  - apply IH. inversion Hs; assumption.
Qed.

Lemma compactFrom_keep (previous d : Duration) (rest : list Duration) :
  d <> previous -> compactFrom previous (d :: rest) = d :: compactFrom d rest.
Proof.
  intros Hne. simpl. rewrite Seconds_eqb.
  destruct (Z.eqb_spec d previous); [contradiction | reflexivity].
Qed.

Lemma compactFrom_skip (previous : Duration) (rest : list Duration) :
  compactFrom previous (previous :: rest) = compactFrom previous rest.
Proof. simpl. rewrite Seconds_eqb, Z.eqb_refl. reflexivity. Qed.

Lemma collapseRuns_compactFrom (d : Duration) (rest : list Duration) :
  collapseRuns (d :: rest) = d :: compactFrom d rest.
Proof.
  revert d. induction rest as [|d' rest IH]; intros d; [reflexivity|].
  change (collapseRuns (d :: d' :: rest))
    with (if d =? d' then collapseRuns (d' :: rest)
          else d :: collapseRuns (d' :: rest)).
  destruct (Z.eqb_spec d d') as [->|Hne].
  - rewrite compactFrom_skip. apply IH.
  - rewrite compactFrom_keep by congruence. rewrite IH. reflexivity.
Qed.

Lemma compactFrom_nil_iff (d : Duration) (rest : list Duration) :
  compactFrom d rest = [] <-> Forall (fun d' => d' = d) rest.
Proof.
  induction rest as [|d' rest IH].
  - split; intros; [constructor | reflexivity].
  - destruct (Z.eq_dec d' d) as [->|Hne].
    + rewrite compactFrom_skip, IH. split; intros H.
      * constructor; [reflexivity | assumption].
      * inversion H; assumption.
    + rewrite compactFrom_keep by assumption. split; intros H.
      * discriminate.
      * inversion H; contradiction.
Qed.

(** C3, as the code has it: [compileDifferences] returns for every
    non-empty list of instants, with one difference per adjacent pair,
    and returns the pair of empty lists for a single instant; being a
    function it is deterministic.  On the empty list it does not
    return: allocating a slice of length -1 panics. *)
Theorem compileDifferences_total :
  (forall r : Time, compileDifferences [r] = Some ([], [])) /\
  (forall (r : Time) (rest : list Time),
      exists differences compact,
        compileDifferences (r :: rest) = Some (differences, compact) /\
        length differences = length rest) /\
  compileDifferences [] = None.
Proof.
  split; [reflexivity|]. split; [|reflexivity].
  intros r rest. eexists; eexists. split; [reflexivity|].
  rewrite differencesOf_length. simpl. lia.
Qed.

(** C3, as stated, fails on the empty list: no pair is returned. *)
Lemma compileDifferences_empty_panics :
  (length (@nil Time) <= 1)%nat /\
  compileDifferences [] <> Some ([], []) /\
  compileDifferences [] = None.
Proof. split; [simpl; lia|]. split; [discriminate | reflexivity]. Qed.

(** C6, as stated, fails on an ascending list whose first two instants
    coincide: the first difference is 0, equal to the initial
    [previous], so it is not appended and [compact] is empty. *)
Lemma compileDifferences_repeated_instant :
  Sorted Z.le [5; 5] /\
  (2 <= length [5; 5])%nat /\
  compileDifferences [5; 5] = Some ([0], []) /\
  (1 <= length [0])%nat /\
  ~ (1 <= length (@nil Duration))%nat /\
  (forall d d', In d [0] -> In d' [0] -> d = d') /\
  length (@nil Duration) <> 1%nat.
Proof.
  split; [repeat constructor; lia|].
  split; [simpl; lia|].
  split; [reflexivity|].
  split; [simpl; lia|].
  split; [simpl; lia|].
  split; [|discriminate].
  intros d d' [<-|[]] [<-|[]]. reflexivity.
Qed.

(** C6, amended: for every strictly ascending list of n >= 2 instants,
    [differences] holds the n-1 adjacent differences, [compact] is
    [differences] with consecutive duplicates removed and starts with
    the first difference, so it has at least one element, and exactly
    one if and only if all the differences are equal. *)
Theorem compileDifferences_compact (recurrences : list Time) :
  Sorted Z.lt recurrences ->
  (2 <= length recurrences)%nat ->
  exists differences compact,
    compileDifferences recurrences = Some (differences, compact) /\
    length differences = (length recurrences - 1)%nat /\
    (forall k a b,
        nth_error recurrences k = Some a ->
        nth_error recurrences (S k) = Some b ->
        nth_error differences k = Some (Sub b a)) /\
    compact = compactFrom 0 differences /\
    compact = collapseRuns differences /\
    hd_error compact = hd_error differences /\
    (1 <= length compact)%nat /\
    (length compact = 1%nat <->
     forall d d', In d differences -> In d' differences -> d = d').
Proof.
  intros Hs Hlen.
  destruct recurrences as [|r0 [|r1 rest]]; simpl in Hlen; try lia.
  pose proof (differencesOf_positive _ Hs) as Hpos.
  pose proof (differencesOf_length (r0 :: r1 :: rest)) as Hl.
  exists (differencesOf (r0 :: r1 :: rest)).
  exists (compactFrom 0 (differencesOf (r0 :: r1 :: rest))).
  split; [reflexivity|]. split; [assumption|].
  split; [intros k a b; apply differencesOf_nth|].
  split; [reflexivity|].
  change (differencesOf (r0 :: r1 :: rest))
    with (Sub r1 r0 :: differencesOf (r1 :: rest)) in *.
  set (d0 := Sub r1 r0) in *. set (ds := differencesOf (r1 :: rest)) in *.
  assert (Hd0 : d0 <> 0) by (inversion Hpos; subst; lia).
  rewrite compactFrom_keep by assumption.
  split; [symmetry; apply collapseRuns_compactFrom|].
  split; [reflexivity|]. split; [simpl; lia|].
  split.
  - intros Hone. assert (Hnil : compactFrom d0 ds = [])
      by (destruct (compactFrom d0 ds); [reflexivity | discriminate]).
    apply compactFrom_nil_iff in Hnil. rewrite Forall_forall in Hnil.
    intros d d' [<-|Hd] [<-|Hd'].
    + reflexivity.
    + symmetry. apply Hnil; assumption.
    + apply Hnil; assumption.
    + rewrite (Hnil _ Hd), (Hnil _ Hd'). reflexivity.
  - intros Hall. assert (Hnil : compactFrom d0 ds = []).
    { apply compactFrom_nil_iff, Forall_forall. intros d Hd.
      apply Hall; [right; assumption | left; reflexivity]. }
    rewrite Hnil. reflexivity.
Qed.

Lemma compileDifferences_compact_witness :
  exists differences compact,
    compileDifferences [3600; 7200; 10800; 14400; 21600; 28800]
      = Some (differences, compact) /\
    compact = [3600 * Second; 7200 * Second].
Proof.
  destruct (compileDifferences_compact [3600; 7200; 10800; 14400; 21600; 28800])
    as (differences & compact & Hc & _ & _ & Hcompact & _).
  - repeat constructor.
  - simpl; lia.
  - exists differences, compact. split; [exact Hc|].
    vm_compute in Hc. injection Hc as <- <-. reflexivity.
Defined.

(** ** Repetition duration *)

(** Without the promotion the empty list is the only failure. *)
Lemma getRepetitionDuration_nonempty (start : Time) (recurrences : list Time) :
  recurrences <> [] ->
  exists duration,
    getRepetitionDuration start recurrences = Some duration /\
    last recurrences start - start <= duration.
Proof.
  intros Hne. unfold getRepetitionDuration.
  rewrite (index_last recurrences start) by assumption.
  eexists. split; [reflexivity|].
  unfold period.Between, period.DurationApprox, period.NewHMS.
  set (span := last recurrences start - start).
  destruct (Z.eqb_spec (span * Second) (1439 * Minute)) as [H|H]; [|lia].
  unfold Minute, Second, Nanosecond in H. lia.
Qed.

(** ** Weekday conversion *)

Lemma fold_setWeekday (input : list Z) (acc : DaysOfWeek) :
  fold_left setWeekday input acc =
    {| Sunday := Sunday acc || occurs 0 input || occurs 7 input;
       Monday := Monday acc || occurs 1 input;
       Tuesday := Tuesday acc || occurs 2 input;
       Wednesday := Wednesday acc || occurs 3 input;
       Thursday := Thursday acc || occurs 4 input;
       Friday := Friday acc || occurs 5 input;
       Saturday := Saturday acc || occurs 6 input |}.
Proof.
  revert acc. induction input as [|d input IH]; intros [su mo tu we th fr sa].
  - simpl. now rewrite !orb_false_r.
  - simpl fold_left. rewrite IH. unfold occurs, setWeekday. simpl.
    repeat match goal with
           | |- context [d =? ?k] =>
               destruct (Z.eqb_spec d k); [subst d; simpl|]
           end;
      simpl; rewrite ?orb_true_r, ?orb_false_r, ?orb_true_l; try reflexivity;
      try (f_equal; rewrite ?orb_true_r; reflexivity).
Qed.

(** C8: [convertWeekdays] maps the empty list to the empty weekday set,
    and in general sets Sunday exactly when 0 or 7 occurs in the input,
    Monday..Saturday exactly when 1..6 occur; any other value leaves no
    mark, so the result depends only on which of 0..7 occur. *)
Theorem convertWeekdays_spec :
  convertWeekdays [] = noWeekDays /\
  (forall input : list Z,
      convertWeekdays input =
        {| Sunday := occurs 0 input || occurs 7 input;
           Monday := occurs 1 input;
           Tuesday := occurs 2 input;
           Wednesday := occurs 3 input;
           Thursday := occurs 4 input;
           Friday := occurs 5 input;
           Saturday := occurs 6 input |}) /\
  (forall (input : list Z) (v : Z),
      ~ (0 <= v <= 7) -> convertWeekdays (v :: input) = convertWeekdays input) /\
  (forall input input' : list Z,
      (forall v, 0 <= v <= 7 -> occurs v input = occurs v input') ->
      convertWeekdays input = convertWeekdays input').
Proof.
  assert (Hspec : forall input : list Z,
      convertWeekdays input =
        {| Sunday := occurs 0 input || occurs 7 input;
           Monday := occurs 1 input;
           Tuesday := occurs 2 input;
           Wednesday := occurs 3 input;
           Thursday := occurs 4 input;
           Friday := occurs 5 input;
           Saturday := occurs 6 input |}).
  { intros input. unfold convertWeekdays.
    destruct input as [|d input]; [reflexivity|].
    rewrite len_cons.
    destruct (Z.eqb_spec (len input + 1) 0) as [H|_].
    - pose proof (len_nonneg input). lia.
    - rewrite fold_setWeekday. reflexivity. }
  split; [reflexivity|]. split; [exact Hspec|]. split.
  - intros input v Hv. rewrite !Hspec. unfold occurs. simpl.
    repeat match goal with
           | |- context [v =? ?k] => destruct (Z.eqb_spec v k); [lia|]
           end.
    reflexivity.
  - intros input input' H. rewrite !Hspec.
    rewrite !(H 0), !(H 1), !(H 2), !(H 3), !(H 4), !(H 5), !(H 6), !(H 7) by lia.
    reflexivity.
Qed.

Lemma convertWeekdays_spec_witness :
  convertWeekdays [9; 0; 3] = convertWeekdays [3; 0; 3] /\
  convertWeekdays [9; 3] = convertWeekdays [3].
Proof.
  destruct convertWeekdays_spec as (_ & _ & Hdrop & Hdep). split.
  - apply Hdep. intros v Hv.
    assert (Hc : v = 0 \/ v = 1 \/ v = 2 \/ v = 3 \/ v = 4 \/ v = 5 \/ v = 6 \/ v = 7)
      by lia.
    repeat (destruct Hc as [->|Hc]; [reflexivity|]). subst; reflexivity.
  - apply Hdrop. lia.
Defined.

(** ** Systemd target *)

Section AnalyzerFacts.

Import systemd.

Variable RunErr : Type.
Variable analyze : list string -> string -> option RunErr.

Lemma ran_app (t1 t2 : list IO) : ran (t1 ++ t2) = ran t1 ++ ran t2.
Proof.
  induction t1 as [|[i n|s] t1 IH]; simpl; [reflexivity | assumption |].
  now rewrite IH.
Qed.

Lemma analysed_later (schedule : string) (rest : list string)
  (failure : option (nat * error RunErr)) :
  analysed (schedule :: rest) (later failure) = schedule :: analysed rest failure.
Proof. destruct failure as [[i [m|e]]|]; reflexivity. Qed.

(** The loop returns [events] untouched, the error of the first
    failure, and runs the analyzer exactly on [analysed]. *)
Lemma loadLoop_spec (schedules : list string) :
  forall (total index : Z) (events : list calendar.Event) (trace : list IO),
    let failure := firstFailure analyze (ran trace) schedules in
    let r := loadLoop analyze total index schedules events trace in
    fst (fst r) = events /\
    snd (fst r) = option_map snd failure /\
    ran (snd r) = ran trace ++ analysed schedules failure /\
    (Forall (fun s => s <> EmptyString) (ran trace) ->
     Forall (fun s => s <> EmptyString) (ran (snd r))).
Proof.
  induction schedules as [|schedule rest IH]; intros total index events trace.
  - simpl. rewrite app_nil_r. auto.
  - simpl. destruct (String.eqb_spec schedule EmptyString) as [->|Hne].
    + simpl. rewrite app_nil_r. auto.
    + rewrite !ran_app. simpl. rewrite app_nil_r.
      destruct (analyze (ran trace) schedule) as [err|] eqn:Hrun.
      * simpl. rewrite !ran_app. simpl. rewrite app_nil_r.
        repeat split; try reflexivity.
        intros H. apply Forall_app. split; [assumption|]. now constructor.
      * specialize (IH total (index + 1) events
                       ((trace ++ [Printf (index + 1) total]) ++ [Run schedule])).
        rewrite !ran_app in IH. simpl in IH. rewrite app_nil_r in IH.
        destruct IH as (He & Herr & Hran & Hnonempty).
        repeat split.
        -- exact He.
        -- rewrite Herr.
           destruct (firstFailure analyze (ran trace ++ [schedule]) rest)
             as [[i e]|]; reflexivity.
        -- rewrite Hran, analysed_later, <- app_assoc. reflexivity.
        -- intros H. apply Hnonempty, Forall_app. split; [assumption|].
           now constructor.
Qed.

Lemma firstFailure_app (pre rest history : list string) :
  firstFailure analyze history pre = None ->
  firstFailure analyze history (pre ++ EmptyString :: rest)
    = Some (length pre, errorString "empty schedule").
Proof.
  revert history. induction pre as [|s pre IH]; intros history H.
  - reflexivity.
  - simpl in *. destruct (String.eqb s EmptyString); [discriminate|].
    destruct (analyze history s); [discriminate|].
    destruct (firstFailure analyze (history ++ [s]) pre) as [[i e]|] eqn:Hff;
      [discriminate|].
    rewrite (IH _ Hff). reflexivity.
Qed.

(** What [firstFailure] says, spelled out: the schedules before the
    failing one are non-empty and accepted, and the failing one is
    empty or rejected with the error reported. *)
Lemma firstFailure_sound (schedules history : list string) (i : nat)
  (e : error RunErr) :
  firstFailure analyze history schedules = Some (i, e) ->
  firstFailure analyze history (firstn i schedules) = None /\
  exists schedule,
    nth_error schedules i = Some schedule /\
    ((schedule = EmptyString /\ e = errorString "empty schedule") \/
     (schedule <> EmptyString /\
      exists err, analyze (history ++ firstn i schedules) schedule = Some err /\
                  e = runError err)).
Proof.
  revert history i. induction schedules as [|s rest IH]; intros history i H.
  - discriminate.
  - simpl in H. destruct (String.eqb_spec s EmptyString) as [->|Hne].
    + injection H as <- <-. split; [reflexivity|].
      exists EmptyString. split; [reflexivity|]. left; auto.
    + destruct (analyze history s) as [err|] eqn:Hrun.
      * injection H as <- <-. split; [reflexivity|].
        exists s. split; [reflexivity|]. right. split; [assumption|].
        exists err. simpl. rewrite app_nil_r. auto.
      * destruct (firstFailure analyze (history ++ [s]) rest) as [[j e']|] eqn:Hff;
          [|discriminate].
        injection H as <- <-.
        destruct (IH _ _ Hff) as (Hpre & schedule & Hnth & Hcase).
        split.
        -- simpl. destruct (String.eqb_spec s EmptyString); [contradiction|].
           rewrite Hrun, Hpre. reflexivity.
        -- exists schedule. split; [exact Hnth|].
           simpl firstn. rewrite <- app_assoc in Hcase. exact Hcase.
Qed.

End AnalyzerFacts.

(** C4, as the code has it: [loadSchedules] runs the analyzer on the
    schedules in order and stops at the first schedule that is empty or
    that the analyzer rejects; when the analyzer rejects a schedule the
    error returned is the analyzer's own error, unchanged (the index of
    the schedule is not part of it). *)
Theorem loadSchedules_first_failure (RunErr : Type)
  (analyze : list string -> string -> option RunErr) (schedules : list string) :
  let r := systemd.loadSchedules analyze schedules in
  match systemd.firstFailure analyze [] schedules with
  | None =>
      snd (fst r) = None /\ systemd.ran (snd r) = schedules
  | Some (i, e) =>
      snd (fst r) = Some e /\
      systemd.firstFailure analyze [] (firstn i schedules) = None /\
      exists schedule,
        nth_error schedules i = Some schedule /\
        ((schedule = EmptyString /\
          e = systemd.errorString "empty schedule" /\
          systemd.ran (snd r) = firstn i schedules) \/
         (schedule <> EmptyString /\
          exists err,
            analyze (firstn i schedules) schedule = Some err /\
            e = systemd.runError err /\
            systemd.ran (snd r) = firstn (S i) schedules))
  end.
Proof.
  intros r.
  destruct (loadLoop_spec RunErr analyze schedules (len schedules) 0 [] [])
    as (_ & Herr & Hran & _).
  fold (systemd.loadSchedules analyze schedules) in Herr, Hran. fold r in Herr, Hran.
  simpl in Herr, Hran.
  destruct (systemd.firstFailure analyze [] schedules) as [[i e]|] eqn:Hff.
  - split; [exact Herr|].
    destruct (firstFailure_sound RunErr analyze _ _ _ _ Hff)
      as (Hpre & schedule & Hnth & Hcase).
    split; [exact Hpre|]. exists schedule. split; [exact Hnth|].
    destruct Hcase as [[-> ->]|(Hne & err & Hrun & ->)].
    + left. auto.
    + right. split; [assumption|]. exists err. auto.
  - split; assumption.
Qed.

(** C4, as stated, fails: the error does not carry the index.  The
    same error comes back whether the rejected schedule is at index 0
    or at index 1, so no reading of the error recovers the index. *)
Lemma loadSchedules_error_without_index :
  systemd.firstFailure rejectBad [] ["bad"%string]
    = Some (0%nat, systemd.runError 1) /\
  systemd.firstFailure rejectBad [] ["ok"%string; "bad"%string]
    = Some (1%nat, systemd.runError 1) /\
  snd (fst (systemd.loadSchedules rejectBad ["bad"%string]))
    = snd (fst (systemd.loadSchedules rejectBad ["ok"%string; "bad"%string])) /\
  ~ (exists indexOf : systemd.error Z -> nat,
       forall schedules i e e',
         systemd.firstFailure rejectBad [] schedules = Some (i, e) ->
         snd (fst (systemd.loadSchedules rejectBad schedules)) = Some e' ->
         indexOf e' = i).
Proof.
  split; [reflexivity|]. split; [reflexivity|]. split; [reflexivity|].
  intros [indexOf H].
  pose proof (H ["bad"%string] 0%nat _ _ eq_refl eq_refl) as H0.
  pose proof (H ["ok"%string; "bad"%string] 1%nat _ _ eq_refl eq_refl) as H1.
  congruence.
Qed.

(** C9: the event list [loadSchedules] returns is empty (on success as
    on failure); the analyzer is never run on an empty string; and when
    an empty string follows schedules that are all non-empty and
    accepted, the result is the "empty schedule" error and the analyzer
    has been run on the schedules before it only. *)
Theorem loadSchedules_empty_schedule (RunErr : Type)
  (analyze : list string -> string -> option RunErr)
  (pre post : list string) :
  systemd.firstFailure analyze [] pre = None ->
  let r := systemd.loadSchedules analyze (pre ++ EmptyString :: post) in
  snd (fst r) = Some (systemd.errors_New "empty schedule") /\
  systemd.ran (snd r) = pre /\
  (forall schedules,
      fst (fst (systemd.loadSchedules analyze schedules)) = [] /\
      Forall (fun s => s <> EmptyString)
             (systemd.ran (snd (systemd.loadSchedules analyze schedules)))).
Proof.
  intros Hpre r.
  destruct (loadLoop_spec RunErr analyze (pre ++ EmptyString :: post)
              (len (pre ++ EmptyString :: post)) 0 [] [])
    as (_ & Herr & Hran & _).
  fold (systemd.loadSchedules analyze (pre ++ EmptyString :: post)) in Herr, Hran.
  fold r in Herr, Hran. simpl in Herr, Hran.
  rewrite (firstFailure_app RunErr analyze pre post [] Hpre) in Herr, Hran.
  simpl in Herr, Hran.
  split; [exact Herr|]. split.
  - rewrite Hran. rewrite firstn_app, firstn_all, Nat.sub_diag. simpl.
    apply app_nil_r.
  - intros schedules.
    destruct (loadLoop_spec RunErr analyze schedules (len schedules) 0 [] [])
      as (He & _ & _ & Hnonempty).
    split; [exact He|]. apply Hnonempty. constructor.
Qed.

Lemma loadSchedules_empty_schedule_witness :
  let r := systemd.loadSchedules rejectBad
             ["*:0/15"%string; EmptyString; "bad"%string] in
  snd (fst r) = Some (systemd.errorString "empty schedule") /\
  systemd.ran (snd r) = ["*:0/15"%string].
Proof.
  destruct (loadSchedules_empty_schedule Z rejectBad
              ["*:0/15"%string] ["bad"%string] eq_refl) as (Herr & Hran & _).
  split; [exact Herr | exact Hran].
Defined.

(** ** The builder only grows the task *)

Lemma sameFrame_refl (t : Task) : sameFrame t t.
Proof. repeat split. Qed.

Lemma sameFrame_trans (t t' t'' : Task) :
  sameFrame t t' -> sameFrame t' t'' -> sameFrame t t''.
Proof.
  unfold sameFrame. intros (a1 & a2 & a3 & a4 & a5 & a6 & a7)
                           (b1 & b2 & b3 & b4 & b5 & b6 & b7).
  repeat split; congruence.
Qed.

Lemma Grows_refl (s : State) : Grows s s [] [] [].
Proof. split; rewrite ?app_nil_r; auto using sameFrame_refl. Qed.

Lemma Grows_trans (s s' s'' : State) ts cs ws ts' cs' ws' :
  Grows s s' ts cs ws -> Grows s' s'' ts' cs' ws' ->
  Grows s s'' (ts ++ ts') (cs ++ cs') (ws ++ ws').
Proof.
  intros [a1 a2 a3 a4] [b1 b2 b3 b4]. split.
  - rewrite b1, a1. symmetry. apply app_assoc.
  - rewrite b2, a2. symmetry. apply app_assoc.
  - rewrite b3, a3. symmetry. apply app_assoc.
  - eapply sameFrame_trans; eassumption.
Qed.

Section Safety.

Variable P : CalendarTrigger -> Prop.

Lemma Safe_ret {A : Type} (a : A) : Safe P (ret a).
Proof.
  intros s. exists a, s, [], [], [].
  split; [reflexivity|]. split; [apply Grows_refl | constructor].
Qed.

Lemma Safe_bind {A B : Type} (m : M A) (k : A -> M B) :
  Safe P m -> (forall a, Safe P (k a)) -> Safe P (bind m k).
Proof.
  intros Hm Hk s.
  destruct (Hm s) as (a & s1 & ts & cs & ws & Hrun & Hg & HP).
  destruct (Hk a s1) as (b & s2 & ts' & cs' & ws' & Hrun' & Hg' & HP').
  exists b, s2, (ts ++ ts'), (cs ++ cs'), (ws ++ ws').
  unfold bind. rewrite Hrun. split; [exact Hrun'|].
  split; [eapply Grows_trans; eassumption|].
  apply Forall_app. auto.
Qed.

Lemma Safe_orPanic {A : Type} (a : A) : Safe P (orPanic (Some a)).
Proof.
  intros s. exists a, s, [], [], [].
  split; [reflexivity|]. split; [apply Grows_refl | constructor].
Qed.

Lemma Safe_Warningf (fmt : string) (a : list Arg) : Safe P (Warningf fmt a).
Proof.
  intros s. eexists tt, _, [], [], [_]. split; [reflexivity|].
  split; [|constructor].
  split; simpl; rewrite ?app_nil_r; try reflexivity; repeat split.
Qed.

Lemma addCalendarTrigger_run (trigger : CalendarTrigger) (s : State) :
  addCalendarTrigger trigger s =
    Some (tt, {| task := setCalendarTrigger
                           (CalendarTriggers (Task_Triggers (task s)) ++ [trigger])
                           (task s);
                 warnings := warnings s; clock := clock s |}).
Proof.
  unfold addCalendarTrigger, bind, getTask, modifyTask.
  destruct (CalendarTriggers (Task_Triggers (task s))); reflexivity.
Qed.

Lemma addTimeTrigger_run (K : Constants) (triggerOnce : Time) (s : State) :
  addTimeTrigger K triggerOnce s =
    Some (tt, {| task := setTimeTrigger
                           (TimeTriggers (Task_Triggers (task s))
                              ++ [{| TT_StartBoundary := Format K triggerOnce |}])
                           (task s);
                 warnings := warnings s; clock := clock s |}).
Proof.
  unfold addTimeTrigger, bind, getTask, modifyTask.
  destruct (TimeTriggers (Task_Triggers (task s))); reflexivity.
Qed.

Lemma Safe_addCalendarTrigger (trigger : CalendarTrigger) :
  P trigger -> Safe P (addCalendarTrigger trigger).
Proof.
  intros HP s. eexists tt, _, [], [trigger], [].
  split; [apply addCalendarTrigger_run|].
  split; [|constructor; [assumption | constructor]].
  split; simpl; rewrite ?app_nil_r; try reflexivity; repeat split.
Qed.

Lemma Safe_addTimeTrigger (K : Constants) (triggerOnce : Time) :
  Safe P (addTimeTrigger K triggerOnce).
Proof.
  intros s. eexists tt, _, [_], [], [].
  split; [apply addTimeTrigger_run|].
  split; [|constructor].
  split; simpl; rewrite ?app_nil_r; try reflexivity; repeat split.
Qed.

Lemma Safe_timeNow (Now : nat -> Time) : Safe P (timeNow Now).
Proof.
  intros s. eexists _, _, [], [], []. split; [reflexivity|].
  split; [|constructor].
  split; simpl; rewrite ?app_nil_r; try reflexivity; repeat split.
Qed.

Lemma Safe_forRange {A : Type} (body : A -> M Flow) (l : list A) :
  (forall x, Safe P (body x)) -> Safe P (forRange l body).
Proof.
  intros Hbody. induction l as [|x l IH]; simpl.
  - apply Safe_ret.
  - apply Safe_bind; [apply Hbody|].
    intros [|]; [exact IH | apply Safe_ret].
Qed.

End Safety.

Create HintDb safe.

#[local] Hint Resolve Safe_ret Safe_Warningf Safe_addTimeTrigger Safe_timeNow
  Safe_orPanic : safe.

Ltac safe_step :=
  first [ apply Safe_addCalendarTrigger; reflexivity
        | solve [auto with safe]
        | apply Safe_forRange; intros ?
        | apply Safe_bind; [|intros ?] ].

Lemma len_zero_nil {A : Type} (l : list A) : (len l =? 0) = true -> l = [].
Proof.
  destruct l; [reflexivity|]. rewrite len_cons. intros H.
  apply Z.eqb_eq in H. pose proof (len_nonneg l). lia.
Qed.

Lemma len_one_singleton {A : Type} (l : list A) :
  (len l =? 1) = true -> exists x, l = [x].
Proof.
  destruct l as [|x [|y l]]; intros H; apply Z.eqb_eq in H.
  - discriminate.
  - eauto.
  - rewrite !len_cons in H. pose proof (len_nonneg l). lia.
Qed.

Section BuilderFacts.

Variable K : Constants.
Variable Now : nat -> Time.

(** The three synthesizers never panic: every indexing and both
    helper calls are guarded by the length tests before them. *)
Lemma Safe_addDailyTrigger (schedule : calendar.Event) :
  Safe (fun c => exclusive c = true) (addDailyTrigger K Now schedule).
Proof.
  unfold addDailyTrigger. apply Safe_bind; [apply Safe_timeNow|]. intros now.
  set (start := calendar.Next schedule now).
  set (recurrences := calendar.GetAllInBetween schedule start _).
  destruct (len recurrences =? 0) eqn:H0; [apply Safe_Warningf|].
  destruct (len recurrences =? 1) eqn:H1.
  - destruct (len_one_singleton _ H1) as [r0 ->]. rewrite index_0.
    repeat safe_step.
  - destruct recurrences as [|r0 rest] eqn:Hrec; [discriminate|].
    change (compileDifferences (r0 :: rest))
      with (Some (differencesOf (r0 :: rest),
                  compactFrom 0 (differencesOf (r0 :: rest)))).
    apply Safe_bind; [apply Safe_orPanic|]. intros dc. simpl snd.
    destruct (len (snd dc) =? 1) eqn:Hc.
    + destruct (len_one_singleton _ Hc) as [c0 ->]. rewrite index_0.
      destruct (getRepetitionDuration_nonempty start (r0 :: rest))
        as (duration & -> & _); [discriminate|].
      repeat safe_step.
    + destruct (len (r0 :: rest) >? maxTriggers K); [apply Safe_Warningf|].
      repeat safe_step.
Qed.

Lemma Safe_addWeeklyTrigger (schedule : calendar.Event) :
  Safe (fun c => exclusive c = true) (addWeeklyTrigger K Now schedule).
Proof.
  unfold addWeeklyTrigger. apply Safe_bind; [apply Safe_timeNow|]. intros now.
  set (start := calendar.Next schedule now).
  set (recurrences := calendar.GetAllInBetween schedule start _).
  destruct (len recurrences =? 0) eqn:H0; [apply Safe_Warningf|].
  destruct (len recurrences =? 1) eqn:H1.
  - destruct (len_one_singleton _ H1) as [r0 ->]. rewrite index_0.
    repeat safe_step.
  - destruct recurrences as [|r0 rest] eqn:Hrec; [discriminate|].
    change (compileDifferences (r0 :: rest))
      with (Some (differencesOf (r0 :: rest),
                  compactFrom 0 (differencesOf (r0 :: rest)))).
    apply Safe_bind; [apply Safe_orPanic|]. intros dc. simpl snd.
    destruct (len (snd dc) =? 1) eqn:Hc.
    + destruct (len_one_singleton _ Hc) as [c0 ->]. rewrite index_0.
      destruct (getRepetitionDuration_nonempty start (r0 :: rest))
        as (duration & -> & _); [discriminate|].
      repeat safe_step.
    + destruct (len (r0 :: rest) >? maxTriggers K); [apply Safe_Warningf|].
      repeat safe_step.
Qed.

Lemma Safe_addMonthlyTrigger (schedule : calendar.Event) :
  Safe (fun c => exclusive c = true) (addMonthlyTrigger K Now schedule).
Proof.
  unfold addMonthlyTrigger. apply Safe_bind; [apply Safe_timeNow|]. intros now.
  set (start := calendar.Next schedule now).
  set (recurrences := calendar.GetAllInBetween schedule start _).
  destruct (len recurrences =? 0); [apply Safe_Warningf|].
  destruct (len recurrences >? maxTriggers K); [apply Safe_Warningf|].
  apply Safe_bind; [|intros ?; apply Safe_ret].
  apply Safe_forRange. intros recurrence.
  destruct (calendar.HasValue (calendar.WeekDay schedule)); simpl.
  - destruct (calendar.HasValue (calendar.Day schedule)); repeat safe_step.
  - repeat safe_step.
Qed.

Lemma Safe_AddSchedules (schedules : list calendar.Event) :
  Safe (fun c => exclusive c = true) (AddSchedules K Now schedules).
Proof.
  unfold AddSchedules. apply Safe_bind; [|intros ?; apply Safe_ret].
  apply Safe_forRange. intros schedule.
  destruct (calendar.AsTime schedule) as [triggerOnce|]; [repeat safe_step|].
  destruct (calendar.IsDaily schedule).
  { apply Safe_bind; [apply Safe_addDailyTrigger | intros ?; apply Safe_ret]. }
  destruct (calendar.IsWeekly schedule).
  { apply Safe_bind; [apply Safe_addWeeklyTrigger | intros ?; apply Safe_ret]. }
  destruct (calendar.IsMonthly schedule).
  { apply Safe_bind; [apply Safe_addMonthlyTrigger | intros ?; apply Safe_ret]. }
  repeat safe_step.
Qed.

Lemma Safe_AddSchedulesCalls (calls : list (list calendar.Event)) :
  Safe (fun c => exclusive c = true) (AddSchedulesCalls K Now calls).
Proof.
  induction calls as [|schedules calls IH]; simpl.
  - apply Safe_ret.
  - apply Safe_bind; [apply Safe_AddSchedules | intros ?; exact IH].
Qed.

End BuilderFacts.

(** ** What the synthesizers do on given recurrences *)

Section Synthesis.

Variable K : Constants.
Variable Now : nat -> Time.

Lemma irregular_inv (recurrences : list Time) :
  irregular recurrences = true ->
  (len recurrences =? 0) = false /\
  (len recurrences =? 1) = false /\
  exists differences compact,
    compileDifferences recurrences = Some (differences, compact) /\
    (len compact =? 1) = false.
Proof.
  unfold irregular, uniform. intros H.
  apply andb_true_iff in H. destruct H as [Hlen Hu].
  apply Z.leb_le in Hlen.
  split; [apply Z.eqb_neq; lia|]. split; [apply Z.eqb_neq; lia|].
  destruct recurrences as [|r0 rest]; [rewrite len_nil in Hlen; lia|].
  simpl in Hu. eexists; eexists. split; [reflexivity|].
  now apply negb_true_iff in Hu.
Qed.

Lemma addDailyTrigger_cap (schedule : calendar.Event) (s : State) :
  let start := calendar.Next schedule (Now (clock s)) in
  let recurrences :=
    calendar.GetAllInBetween schedule start (Add start (24 * Hour)) in
  irregular recurrences = true ->
  maxTriggers K < len recurrences ->
  addDailyTrigger K Now schedule s
    = Some (tt, warned s (tooManyTriggersEntry K recurrences)).
Proof.
  intros start recurrences Hirr Hcap.
  destruct (irregular_inv _ Hirr) as (H0 & H1 & differences & compact & Hc & Hu).
  apply Z.gtb_lt in Hcap.
  unfold addDailyTrigger, bind, timeNow.
  fold start. fold recurrences.
  rewrite H0, H1. unfold orPanic. rewrite Hc. cbv beta iota. cbn [snd].
  rewrite Hu, Hcap.
  reflexivity.
Qed.

Lemma addWeeklyTrigger_cap (schedule : calendar.Event) (s : State) :
  let start := calendar.Next schedule (Now (clock s)) in
  let recurrences :=
    calendar.GetAllInBetween schedule start (Add start (24 * Hour)) in
  irregular recurrences = true ->
  maxTriggers K < len recurrences ->
  addWeeklyTrigger K Now schedule s
    = Some (tt, warned s (tooManyTriggersEntry K recurrences)).
Proof.
  intros start recurrences Hirr Hcap.
  destruct (irregular_inv _ Hirr) as (H0 & H1 & differences & compact & Hc & Hu).
  apply Z.gtb_lt in Hcap.
  unfold addWeeklyTrigger, bind, timeNow.
  fold start. fold recurrences.
  rewrite H0, H1. unfold orPanic. rewrite Hc. cbv beta iota. cbn [snd].
  rewrite Hu, Hcap.
  reflexivity.
Qed.

Lemma addMonthlyTrigger_cap (schedule : calendar.Event) (s : State) :
  let start := calendar.Next schedule (Now (clock s)) in
  let recurrences :=
    calendar.GetAllInBetween schedule start (Add start (24 * Hour)) in
  irregular recurrences = true ->
  maxTriggers K < len recurrences ->
  addMonthlyTrigger K Now schedule s
    = Some (tt, warned s (tooManyTriggersEntry K recurrences)).
Proof.
  intros start recurrences Hirr Hcap.
  destruct (irregular_inv _ Hirr) as (H0 & _).
  apply Z.gtb_lt in Hcap.
  unfold addMonthlyTrigger, bind, timeNow.
  fold start. fold recurrences.
  rewrite H0, Hcap. reflexivity.
Qed.

(** A monthly event constrained on both the day of the month and the
    day of the week: one warning whatever the recurrences. *)
Lemma addMonthlyTrigger_both (schedule : calendar.Event) (s : State) :
  calendar.HasValue (calendar.WeekDay schedule) = true ->
  calendar.HasValue (calendar.Day schedule) = true ->
  exists w, addMonthlyTrigger K Now schedule s = Some (tt, warned s w).
Proof.
  intros Hw Hd. unfold addMonthlyTrigger, bind, timeNow.
  set (start := calendar.Next schedule (Now (clock s))).
  set (recurrences := calendar.GetAllInBetween schedule start _).
  destruct (len recurrences =? 0) eqn:H0; [eexists; reflexivity|].
  destruct (len recurrences >? maxTriggers K); [eexists; reflexivity|].
  destruct recurrences as [|r rest]; [discriminate|].
  simpl. unfold bind. rewrite Hw, Hd. simpl. eexists; reflexivity.
Qed.

(** One turn of the loop of [AddSchedules], by class of event. *)
Lemma AddSchedules_one (schedule : calendar.Event) (s s' : State)
  (synth : calendar.Event -> M unit) :
  calendar.AsTime schedule = None ->
  (calendar.IsDaily schedule = true /\ synth = addDailyTrigger K Now) \/
  (calendar.IsDaily schedule = false /\ calendar.IsWeekly schedule = true /\
   synth = addWeeklyTrigger K Now) \/
  (calendar.IsDaily schedule = false /\ calendar.IsWeekly schedule = false /\
   calendar.IsMonthly schedule = true /\ synth = addMonthlyTrigger K Now) ->
  synth schedule s = Some (tt, s') ->
  AddSchedules K Now [schedule] s = Some (tt, s').
Proof.
  intros Ht Hclass Hrun. unfold AddSchedules. simpl. unfold bind. rewrite Ht.
  destruct Hclass as [[Hd ->]|[(Hd & Hw & ->)|(Hd & Hw & Hm & ->)]].
  - rewrite Hd, Hrun. reflexivity.
  - rewrite Hd, Hw, Hrun. reflexivity.
  - rewrite Hd, Hw, Hm, Hrun. reflexivity.
Qed.

End Synthesis.

(** ** Claims on the builder *)

(** C10: a call of [AddSchedules] returns, and leaves a task whose
    [TimeTrigger] and [CalendarTrigger] lists are the former lists with
    new entries appended at the end, every other field of the task
    being as it was. *)
Theorem AddSchedules_appends (K : Constants) (Now : nat -> Time)
  (schedules : list calendar.Event) (s : State) :
  exists s' ts cs,
    AddSchedules K Now schedules s = Some (tt, s') /\
    TimeTriggers (Task_Triggers (task s'))
      = TimeTriggers (Task_Triggers (task s)) ++ ts /\
    CalendarTriggers (Task_Triggers (task s'))
      = CalendarTriggers (Task_Triggers (task s)) ++ cs /\
    Task_RegistrationInfo (task s') = Task_RegistrationInfo (task s) /\
    Task_Principals (task s') = Task_Principals (task s) /\
    Task_Settings (task s') = Task_Settings (task s) /\
    Task_Actions (task s') = Task_Actions (task s) /\
    Task_XMLName (task s') = Task_XMLName (task s) /\
    Version (task s') = Version (task s) /\
    Xmlns (task s') = Xmlns (task s).
Proof.
  destruct (Safe_AddSchedules K Now schedules s)
    as ([] & s' & ts & cs & ws & Hrun & [Ht Hc _ Hf] & _).
  destruct Hf as (f1 & f2 & f3 & f4 & f5 & f6 & f7).
  exists s', ts, cs. repeat split; assumption.
Qed.

(** C1: on a task built with [NewTask], after any sequence of calls of
    [AddSchedules], no calendar trigger carries both [DaysOfMonth] and
    [DaysOfWeek]; and for a monthly event whose Day and Weekday fields
    both have values, [AddSchedules] leaves the task as it was and logs
    exactly one warning. *)
Theorem triggers_exclusive (K : Constants) (Now : nat -> Time) :
  (forall (currentUser : option string) (t0 : Time) (ws0 : list LogEntry)
          (c0 : nat) (calls : list (list calendar.Event)),
      exists s',
        AddSchedulesCalls K Now calls
          {| task := NewTask K currentUser t0; warnings := ws0; clock := c0 |}
          = Some (tt, s') /\
        Forall (fun c => exclusive c = true)
               (CalendarTriggers (Task_Triggers (task s')))) /\
  (forall (schedule : calendar.Event) (s : State),
      calendar.AsTime schedule = None ->
      calendar.IsDaily schedule = false ->
      calendar.IsWeekly schedule = false ->
      calendar.IsMonthly schedule = true ->
      calendar.HasValue (calendar.WeekDay schedule) = true ->
      calendar.HasValue (calendar.Day schedule) = true ->
      exists s' w,
        AddSchedules K Now [schedule] s = Some (tt, s') /\
        task s' = task s /\
        warnings s' = warnings s ++ [w]).
Proof.
  split.
  - intros currentUser t0 ws0 c0 calls.
    destruct (Safe_AddSchedulesCalls K Now calls
                {| task := NewTask K currentUser t0; warnings := ws0;
                   clock := c0 |})
      as ([] & s' & ts & cs & ws & Hrun & [_ Hc _ _] & HP).
    exists s'. split; [exact Hrun|]. rewrite Hc. exact HP.
  - intros schedule s Ht Hd Hw Hm Hwd Hday.
    destruct (addMonthlyTrigger_both K Now schedule s Hwd Hday) as [w Hrun].
    exists (warned s w), w. split; [|split; reflexivity].
    apply (AddSchedules_one K Now schedule s _ (addMonthlyTrigger K Now) Ht);
      [|exact Hrun].
    right; right. auto.
Qed.

Lemma triggers_exclusive_witness :
  exists s' w,
    AddSchedules exampleConstants (fun _ => 0)
      [exampleEvent false false true
         {| calendar.HasValue := true; calendar.GetRangeValues := [1] |}
         {| calendar.HasValue := true; calendar.GetRangeValues := [15] |}
         [7200]]
      exampleState = Some (tt, s') /\
    task s' = task exampleState /\
    warnings s' = warnings exampleState ++ [w].
Proof.
  destruct (triggers_exclusive exampleConstants (fun _ => 0)) as [_ H].
  apply H; reflexivity.
Defined.

(** C2: for a daily, weekly or monthly event whose recurrences in the
    24 hours from its next firing are irregular and more than
    [maxTriggers], [AddSchedules] leaves the task as it was (no trigger
    added) and logs exactly one warning. *)
Theorem trigger_cap (K : Constants) (Now : nat -> Time)
  (schedule : calendar.Event) (s : State) :
  let start := calendar.Next schedule (Now (clock s)) in
  let recurrences :=
    calendar.GetAllInBetween schedule start (Add start (24 * Hour)) in
  calendar.AsTime schedule = None ->
  calendar.IsDaily schedule || calendar.IsWeekly schedule
    || calendar.IsMonthly schedule = true ->
  irregular recurrences = true ->
  maxTriggers K < len recurrences ->
  exists s',
    AddSchedules K Now [schedule] s = Some (tt, s') /\
    task s' = task s /\
    warnings s' = warnings s ++ [tooManyTriggersEntry K recurrences].
Proof.
  intros start recurrences Ht Hclass Hirr Hcap.
  exists (warned s (tooManyTriggersEntry K recurrences)).
  split; [|split; reflexivity].
  destruct (calendar.IsDaily schedule) eqn:Hd.
  { apply (AddSchedules_one K Now schedule s _ (addDailyTrigger K Now) Ht);
      [auto | apply addDailyTrigger_cap; assumption]. }
  destruct (calendar.IsWeekly schedule) eqn:Hw.
  { apply (AddSchedules_one K Now schedule s _ (addWeeklyTrigger K Now) Ht);
      [auto | apply addWeeklyTrigger_cap; assumption]. }
  simpl in Hclass.
  apply (AddSchedules_one K Now schedule s _ (addMonthlyTrigger K Now) Ht);
    [auto 10 | apply addMonthlyTrigger_cap; assumption].
Qed.

Lemma trigger_cap_witness :
  exists s',
    AddSchedules exampleConstants (fun _ => 0)
      [exampleEvent true false false
         {| calendar.HasValue := false; calendar.GetRangeValues := [] |}
         {| calendar.HasValue := false; calendar.GetRangeValues := [] |}
         [3600; 7200; 14400]]
      exampleState = Some (tt, s') /\
    task s' = task exampleState /\
    warnings s' =
      [tooManyTriggersEntry exampleConstants [3600; 7200; 14400]].
Proof.
  apply (trigger_cap exampleConstants (fun _ => 0)
           (exampleEvent true false false
              {| calendar.HasValue := false; calendar.GetRangeValues := [] |}
              {| calendar.HasValue := false; calendar.GetRangeValues := [] |}
              [3600; 7200; 14400])
           exampleState);
    [reflexivity | reflexivity | reflexivity | vm_compute; reflexivity].
Defined.

(** ** Repetition patterns *)

Lemma sorted_last (a d : Time) (l : list Time) :
  Sorted Z.lt (a :: l) -> a <= last (a :: l) d.
Proof.
  revert a. induction l as [|b l IH]; intros a Hs.
  - simpl. lia.
  - inversion Hs as [|? ? Htl Hhd]; subst. inversion Hhd; subst.
    specialize (IH b Htl).
    change (last (a :: b :: l) d) with (last (b :: l) d). lia.
Qed.

Lemma NewOf_bounds (d : Duration) (x : Z) :
  Second <= d <= x * Second -> 1 <= period.NewOf d <= x.
Proof.
  unfold period.NewOf, Second, Nanosecond. intros [Hlo Hhi].
  rewrite Z.quot_div_nonneg by lia. split.
  - apply Z.div_le_lower_bound; lia.
  - apply Z.div_le_upper_bound; lia.
Qed.

Lemma len_two_or_more {A : Type} (x y : A) (l : list A) :
  (len (x :: y :: l) =? 0) = false /\ (len (x :: y :: l) =? 1) = false.
Proof.
  rewrite !len_cons. pose proof (len_nonneg l).
  split; apply Z.eqb_neq; lia.
Qed.

Section Repetition.

Variable K : Constants.
Variable Now : nat -> Time.

(** The repetition both synthesizers emit on a uniform list: what is
    known of the compact differences and of the duration. *)
Lemma uniform_pattern (start : Time) (recurrences : list Time) :
  Sorted Z.lt recurrences ->
  (2 <= length recurrences)%nat ->
  (forall d d', In d (differencesOf recurrences) ->
                In d' (differencesOf recurrences) -> d = d') ->
  Forall (fun r => start <= r) recurrences ->
  (len recurrences =? 0) = false /\
  (len recurrences =? 1) = false /\
  exists differences c0 duration,
    compileDifferences recurrences = Some (differences, [c0]) /\
    getRepetitionDuration start recurrences = Some duration /\
    0 < period.NewOf c0 <= duration.
Proof.
  intros Hs Hlen Hall Hwin.
  destruct recurrences as [|r0 [|r1 rest]]; simpl in Hlen; try lia.
  destruct (len_two_or_more r0 r1 rest) as [H0 H1].
  split; [exact H0|]. split; [exact H1|].
  assert (Hlt : r0 < r1).
  { inversion Hs as [|? ? _ Hhd']; subst. inversion Hhd'; subst; assumption. }
  pose proof (Sub_whole_seconds r1 r0 Hlt) as Hsub.
  unfold compileDifferences.
  change (differencesOf (r0 :: r1 :: rest))
    with (Sub r1 r0 :: differencesOf (r1 :: rest)) in *.
  set (c0 := Sub r1 r0) in *. set (ds := differencesOf (r1 :: rest)) in *.
  assert (Hc0 : c0 <> 0) by (unfold Second, Nanosecond in Hsub; lia).
  rewrite compactFrom_keep by assumption.
  assert (Hnil : compactFrom c0 ds = []).
  { apply compactFrom_nil_iff, Forall_forall. intros d Hd.
    apply Hall; [right; assumption | left; reflexivity]. }
  rewrite Hnil.
  destruct (getRepetitionDuration_nonempty start (r0 :: r1 :: rest))
    as (duration & Hdur & Hspan); [discriminate|].
  exists (c0 :: ds), c0, duration.
  split; [reflexivity|]. split; [exact Hdur|].
  assert (Hlast : r1 <= last (r0 :: r1 :: rest) start).
  { change (last (r0 :: r1 :: rest) start) with (last (r1 :: rest) start).
    apply sorted_last. inversion Hs; assumption. }
  assert (Hstart : start <= r0) by (inversion Hwin; assumption).
  pose proof (NewOf_bounds c0 (r1 - r0) Hsub) as Hb.
  lia.
Qed.

(** C5: when the recurrences of the 24 hours from [start] are strictly
    ascending, at least two, with all adjacent differences equal, the
    daily and the weekly synthesizer each append one trigger with a
    repetition pattern whose interval is strictly positive and at most
    its duration. *)
Theorem repetition_interval_bounds (schedule : calendar.Event) (s : State)
  (synth : calendar.Event -> M unit) :
  let start := calendar.Next schedule (Now (clock s)) in
  let recurrences :=
    calendar.GetAllInBetween schedule start (Add start (24 * Hour)) in
  synth = addDailyTrigger K Now \/ synth = addWeeklyTrigger K Now ->
  Sorted Z.lt recurrences ->
  (2 <= length recurrences)%nat ->
  (forall d d', In d (differencesOf recurrences) ->
                In d' (differencesOf recurrences) -> d = d') ->
  Forall (fun r => start <= r) recurrences ->
  exists s' trigger pattern,
    synth schedule s = Some (tt, s') /\
    CalendarTriggers (Task_Triggers (task s'))
      = CalendarTriggers (Task_Triggers (task s)) ++ [trigger] /\
    Repetition trigger = Some pattern /\
    getRepetitionDuration start recurrences = Some (Duration_ pattern) /\
    0 < Interval pattern <= Duration_ pattern.
Proof.
  intros start recurrences Hsynth Hs Hlen Hall Hwin.
  destruct (uniform_pattern start recurrences Hs Hlen Hall Hwin)
    as (H0 & H1 & differences & c0 & duration & Hc & Hdur & Hb).
  destruct Hsynth as [-> | ->].
  - unfold addDailyTrigger, bind, timeNow. fold start. fold recurrences.
    rewrite H0, H1. unfold orPanic. rewrite Hc. cbv beta iota. cbn [snd].
    change (len [c0] =? 1) with true. cbv iota. rewrite index_0, Hdur.
    rewrite addCalendarTrigger_run.
    eexists; eexists; eexists. split; [reflexivity|].
    split; [reflexivity|]. split; [reflexivity|].
    split; [reflexivity | exact Hb].
  - unfold addWeeklyTrigger, bind, timeNow. fold start. fold recurrences.
    rewrite H0, H1. unfold orPanic. rewrite Hc. cbv beta iota. cbn [snd].
    change (len [c0] =? 1) with true. cbv iota. rewrite index_0, Hdur.
    rewrite addCalendarTrigger_run.
    eexists; eexists; eexists. split; [reflexivity|].
    split; [reflexivity|]. split; [reflexivity|].
    split; [reflexivity | exact Hb].
Qed.

End Repetition.

Lemma repetition_interval_bounds_witness :
  exists s' trigger pattern,
    addDailyTrigger exampleConstants (fun _ => 0)
      (exampleEvent true false false
         {| calendar.HasValue := false; calendar.GetRangeValues := [] |}
         {| calendar.HasValue := false; calendar.GetRangeValues := [] |}
         [3600; 7200; 10800; 14400])
      exampleState = Some (tt, s') /\
    CalendarTriggers (Task_Triggers (task s')) = [trigger] /\
    Repetition trigger = Some pattern /\
    Interval pattern = 3600 /\ Duration_ pattern = 10800.
Proof.
  destruct (repetition_interval_bounds exampleConstants (fun _ => 0)
              (exampleEvent true false false
                 {| calendar.HasValue := false; calendar.GetRangeValues := [] |}
                 {| calendar.HasValue := false; calendar.GetRangeValues := [] |}
                 [3600; 7200; 10800; 14400])
              exampleState (addDailyTrigger exampleConstants (fun _ => 0)))
    as (s' & trigger & pattern & Hrun & Hc & Hr & _ & _).
  - left; reflexivity.
  - simpl. repeat constructor.
  - simpl; lia.
  - simpl. intros d d' Hd Hd'.
    repeat (destruct Hd as [<-|Hd]); try contradiction;
      repeat (destruct Hd' as [<-|Hd']); try contradiction; reflexivity.
  - simpl. repeat constructor; lia.
  - exists s', trigger, pattern. split; [exact Hrun|].
    vm_compute in Hrun. injection Hrun as <-.
    simpl in Hc. split; [exact Hc|]. injection Hc as <-.
    split; [exact Hr|]. simpl in Hr. injection Hr as <-.
    split; reflexivity.
Defined.

(** * Further properties *)

(** ** Month and day-of-month conversion *)

Lemma fold_setMonth (input : list Z) (acc : Months) :
  fold_left setMonth input acc =
    {| January := January acc || occurs 1 input;
       February := February acc || occurs 2 input;
       March := March acc || occurs 3 input;
       April := April acc || occurs 4 input;
       May := May acc || occurs 5 input;
       June := June acc || occurs 6 input;
       July := July acc || occurs 7 input;
       August := August acc || occurs 8 input;
       September := September acc || occurs 9 input;
       October := October acc || occurs 10 input;
       November := November acc || occurs 11 input;
       December := December acc || occurs 12 input |}.
Proof.
  revert acc. induction input as [|d input IH];
    intros [m1 m2 m3 m4 m5 m6 m7 m8 m9 m10 m11 m12].
  - simpl. now rewrite !orb_false_r.
  - simpl fold_left. rewrite IH. unfold occurs, setMonth. simpl.
    repeat match goal with
           | |- context [d =? ?k] =>
               destruct (Z.eqb_spec d k); [subst d; simpl|]
           end;
      simpl; rewrite ?orb_true_r, ?orb_false_r, ?orb_true_l; reflexivity.
Qed.

(** X1: [convertMonths] enables all twelve months on the empty list;
    on a non-empty list it enables month k exactly when k (1..12)
    occurs in it, so a non-empty list of out-of-range values enables no
    month at all. *)
Theorem convertMonths_spec :
  convertMonths []
    = Build_Months true true true true true true true true true true true true /\
  (forall (d : Z) (input : list Z),
      convertMonths (d :: input) =
        {| January := occurs 1 (d :: input);
           February := occurs 2 (d :: input);
           March := occurs 3 (d :: input);
           April := occurs 4 (d :: input);
           May := occurs 5 (d :: input);
           June := occurs 6 (d :: input);
           July := occurs 7 (d :: input);
           August := occurs 8 (d :: input);
           September := occurs 9 (d :: input);
           October := occurs 10 (d :: input);
           November := occurs 11 (d :: input);
           December := occurs 12 (d :: input) |}) /\
  (forall (d : Z) (input : list Z),
      Forall (fun v => ~ (1 <= v <= 12)) (d :: input) ->
      convertMonths (d :: input)
        = Build_Months false false false false false false
                       false false false false false false).
Proof.
  assert (Hspec : forall (d : Z) (input : list Z),
      convertMonths (d :: input) =
        {| January := occurs 1 (d :: input);
           February := occurs 2 (d :: input);
           March := occurs 3 (d :: input);
           April := occurs 4 (d :: input);
           May := occurs 5 (d :: input);
           June := occurs 6 (d :: input);
           July := occurs 7 (d :: input);
           August := occurs 8 (d :: input);
           September := occurs 9 (d :: input);
           October := occurs 10 (d :: input);
           November := occurs 11 (d :: input);
           December := occurs 12 (d :: input) |}).
  { intros d input. unfold convertMonths. rewrite len_cons.
    destruct (Z.eqb_spec (len input + 1) 0) as [H|_].
    - pose proof (len_nonneg input). lia.
    - rewrite fold_setMonth. reflexivity. }
  split; [reflexivity|]. split; [exact Hspec|].
  intros d input Hout. rewrite Hspec.
  assert (Hno : forall k, 1 <= k <= 12 -> occurs k (d :: input) = false).
  { intros k Hk. unfold occurs.
    induction Hout as [|v l Hv _ IH]; [reflexivity|].
    simpl. rewrite IH. destruct (Z.eqb_spec v k); [lia | reflexivity]. }
  rewrite !Hno by lia. reflexivity.
Qed.

Lemma convertMonths_spec_witness :
  convertMonths [0; 13]
    = Build_Months false false false false false false
                   false false false false false false.
Proof.
  destruct convertMonths_spec as (_ & _ & H).
  apply H. repeat constructor; lia.
Defined.

(** X2: [convertDaysOfMonth] never returns an empty set of days: the
    empty list becomes the days 1..31 in order, and a non-empty list is
    kept as it is, out-of-range and repeated values included. *)
Theorem convertDaysOfMonth_spec :
  (forall d : Z, In d (Day (convertDaysOfMonth [])) <-> 1 <= d <= 31) /\
  (forall k : nat, (k < 31)%nat ->
      nth_error (Day (convertDaysOfMonth [])) k = Some (Z.of_nat k + 1)) /\
  (forall (d : Z) (input : list Z),
      Day (convertDaysOfMonth (d :: input)) = d :: input) /\
  (forall input : list Z, Day (convertDaysOfMonth input) <> []).
Proof.
  split; [|split; [|split]].
  - intros d. change (Day (convertDaysOfMonth [])) with (map Z.of_nat (seq 1 31)).
    rewrite in_map_iff. split.
    + intros (n & <- & Hn). apply in_seq in Hn. lia.
    + intros Hd. exists (Z.to_nat d). split; [lia|]. apply in_seq. lia.
  - intros k Hk. change (Day (convertDaysOfMonth [])) with (map Z.of_nat (seq 1 31)).
    rewrite nth_error_map.
    rewrite (nth_error_nth' (seq 1 31) 0%nat) by (rewrite length_seq; exact Hk).
    rewrite seq_nth by exact Hk. simpl option_map. f_equal. lia.
  - intros d input. unfold convertDaysOfMonth. rewrite len_cons.
    destruct (Z.eqb_spec (len input + 1) 0) as [H|_]; [|reflexivity].
    pose proof (len_nonneg input). lia.
  - intros [|d input]; [discriminate|].
    unfold convertDaysOfMonth. rewrite len_cons.
    destruct (Z.eqb_spec (len input + 1) 0) as [H|_]; discriminate.
Qed.

Lemma convertDaysOfMonth_spec_witness :
  nth_error (Day (convertDaysOfMonth [])) 30 = Some 31.
Proof.
  destruct convertDaysOfMonth_spec as (_ & H & _).
  apply (H 30%nat). lia.
Defined.

(** ** Difference compiler, on any list *)

Lemma compactFrom_hd (previous : Duration) (differences : list Duration) :
  hd_error (compactFrom previous differences) <> Some previous.
Proof.
  induction differences as [|d rest IH]; [discriminate|].
  destruct (Z.eq_dec d previous) as [->|Hne].
  - rewrite compactFrom_skip. exact IH.
  - rewrite compactFrom_keep by assumption. simpl. congruence.
Qed.

Lemma compactFrom_subsequence (previous : Duration)
  (differences : list Duration) :
  Subsequence (compactFrom previous differences) differences.
Proof.
  revert previous. induction differences as [|d rest IH]; intros previous.
  - constructor.
  - destruct (Z.eq_dec d previous) as [->|Hne].
    + rewrite compactFrom_skip. constructor. apply IH.
    + rewrite compactFrom_keep by assumption. constructor. apply IH.
Qed.

Lemma compactFrom_adjacent (previous : Duration) (differences : list Duration)
  (i : nat) (a b : Duration) :
  nth_error (compactFrom previous differences) i = Some a ->
  nth_error (compactFrom previous differences) (S i) = Some b ->
  a <> b.
Proof.
  revert previous i. induction differences as [|d rest IH]; intros previous i.
  - destruct i; discriminate.
  - destruct (Z.eq_dec d previous) as [->|Hne].
    + rewrite compactFrom_skip. apply IH.
    + rewrite compactFrom_keep by assumption. destruct i as [|i].
      * simpl. intros Ha Hb. injection Ha as <-.
        pose proof (compactFrom_hd d rest) as Hhd.
        destruct (compactFrom d rest); [discriminate|].
        simpl in Hb, Hhd. congruence.
      * simpl. apply IH.
Qed.

(** X3: on every non-empty list of instants, ascending or not,
    [compileDifferences] returns a compact list that keeps some of the
    differences in their order, never has the same value twice in a
    row, and never starts with a zero difference. *)
Theorem compileDifferences_compact_shape (r : Time) (rest : list Time) :
  exists differences compact,
    compileDifferences (r :: rest) = Some (differences, compact) /\
    Subsequence compact differences /\
    (forall i a b,
        nth_error compact i = Some a -> nth_error compact (S i) = Some b ->
        a <> b) /\
    hd_error compact <> Some 0.
Proof.
  eexists; eexists. split; [reflexivity|].
  split; [apply compactFrom_subsequence|].
  split; [apply compactFrom_adjacent | apply compactFrom_hd].
Qed.

Lemma differencesOf_progression (t0 d : Z) (n : nat) :
  0 < d -> d * Second <= maxDuration ->
  differencesOf (progression t0 d (S n)) = repeat (d * Second) n.
Proof.
  intros Hd Hmax. revert t0. induction n as [|n IH]; intros t0; [reflexivity|].
  change (progression t0 d (S (S n)))
    with (t0 :: t0 + d :: progression (t0 + d + d) d n).
  change (differencesOf (t0 :: t0 + d :: progression (t0 + d + d) d n))
    with (Sub (t0 + d) t0 :: differencesOf (progression (t0 + d) d (S n))).
  rewrite IH. simpl repeat. f_equal.
  unfold Sub. replace (t0 + d - t0) with d by lia.
  destruct (Z.gtb_spec (d * Second) maxDuration); [lia|].
  destruct (Z.ltb_spec (d * Second) minDuration) as [Hlow|]; [|reflexivity].
  unfold Second, Nanosecond, minDuration in Hlow. lia.
Qed.

Lemma compactFrom_repeat (x : Duration) (n : nat) :
  compactFrom x (repeat x n) = [].
Proof. apply compactFrom_nil_iff, Forall_forall. intros y. apply repeat_spec. Qed.

Lemma compileDifferences_on_progression (t0 d : Z) (n : nat) :
  0 < d -> d * Second <= maxDuration ->
  compileDifferences (progression t0 d (S (S n)))
    = Some (repeat (d * Second) (S n), [d * Second]).
Proof.
  intros Hd Hmax. unfold compileDifferences.
  change (progression t0 d (S (S n)))
    with (t0 :: progression (t0 + d) d (S n)).
  change (t0 :: progression (t0 + d) d (S n)) with (progression t0 d (S (S n))).
  rewrite differencesOf_progression by assumption.
  simpl repeat. rewrite compactFrom_keep.
  - rewrite compactFrom_repeat. reflexivity.
  - unfold Second, Nanosecond. lia.
Qed.

(** X4: on an arithmetic progression of n >= 2 instants, d > 0 seconds
    apart (d within the range of a Duration), [compileDifferences]
    returns n-1 differences all equal to d seconds and the one-element
    compact list holding d seconds. *)
Theorem compileDifferences_progression (t0 d : Z) (n : nat) :
  0 < d -> d * Second <= maxDuration ->
  compileDifferences (progression t0 d (S (S n)))
    = Some (repeat (d * Second) (S n), [d * Second]).
Proof. apply compileDifferences_on_progression. Qed.

Lemma compileDifferences_progression_witness :
  compileDifferences [3600; 5400; 7200; 9000]
    = Some ([1800 * Second; 1800 * Second; 1800 * Second], [1800 * Second]).
Proof.
  apply (compileDifferences_progression 3600 1800 2); vm_compute; congruence.
Defined.

(** ** Repetition duration, on any list *)

(** X5: [getRepetitionDuration] panics exactly on the empty list, and
    never reports 1439 minutes: from a start the last recurrence is
    1439 minutes after, it reports 1440 minutes; any other span is
    reported as it is. *)
Theorem getRepetitionDuration_never_1439 (start : Time)
  (recurrences : list Time) :
  (getRepetitionDuration start recurrences = None <-> recurrences = []) /\
  getRepetitionDuration start recurrences <> Some (period.NewHMS 0 1439 0) /\
  (forall duration,
      getRepetitionDuration start recurrences = Some duration ->
      duration <> last recurrences start - start ->
      last recurrences start - start = period.NewHMS 0 1439 0 /\
      duration = period.NewHMS 0 1440 0).
Proof.
  destruct recurrences as [|r rest].
  - split; [split; reflexivity|]. split; discriminate.
  - unfold getRepetitionDuration.
    rewrite (index_last (r :: rest) start) by discriminate.
    unfold period.Between, period.DurationApprox, period.NewHMS.
    set (span := last (r :: rest) start - start).
    split; [split; discriminate|].
    destruct (Z.eqb_spec (span * Second) (1439 * Minute)) as [H|H];
      unfold Minute, Second, Nanosecond in H.
    + split; [intros Heq; injection Heq; lia|].
      intros duration Heq _. injection Heq as <-. lia.
    + split; [intros Heq; injection Heq; lia|].
      intros duration Heq Hne. injection Heq as <-. contradiction.
Qed.

Lemma getRepetitionDuration_never_1439_witness :
  last [0; 86340] 0 - 0 = period.NewHMS 0 1439 0 /\
  86400 = period.NewHMS 0 1440 0.
Proof.
  destruct (getRepetitionDuration_never_1439 0 [0; 86340]) as (_ & _ & H).
  apply (H 86400); [reflexivity | discriminate].
Defined.

(** ** What each synthesizer adds *)

Lemma bind_run {A B : Type} (m : M A) (k : A -> M B) (s s1 : State) (a : A) :
  m s = Some (a, s1) -> bind m k s = k a s1.
Proof. intros H. unfold bind. rewrite H. reflexivity. Qed.

Lemma forRange_continue {A : Type} (body : A -> M Flow) (x : A)
  (rest : list A) (s s1 : State) :
  body x s = Some (Continue, s1) ->
  forRange (x :: rest) body s = forRange rest body s1.
Proof. intros H. simpl. unfold bind. rewrite H. reflexivity. Qed.

Lemma forRange_return {A : Type} (body : A -> M Flow) (x : A)
  (rest : list A) (s s1 : State) :
  body x s = Some (Return, s1) ->
  forRange (x :: rest) body s = Some (Return, s1).
Proof. intros H. simpl. unfold bind. rewrite H. reflexivity. Qed.

Lemma Grows_tick (s s' : State) ts cs ws :
  Grows {| task := task s; warnings := warnings s; clock := S (clock s) |}
        s' ts cs ws ->
  Grows s s' ts cs ws.
Proof. intros [a b c d]. split; assumption. Qed.

Lemma Grows_warned (s : State) (w : LogEntry) : Grows s (warned s w) [] [] [w].
Proof.
  split; simpl; rewrite ?app_nil_r; try reflexivity. apply sameFrame_refl.
Qed.

(** A loop that installs one trigger per recurrence. *)
Lemma forRange_install (mk : Time -> CalendarTrigger)
  (recurrences : list Time) (s : State) :
  exists s',
    forRange recurrences
      (fun recurrence =>
         bind (addCalendarTrigger (mk recurrence)) (fun _ => ret Continue)) s
      = Some (Continue, s') /\
    Grows s s' [] (map mk recurrences) [] /\
    clock s' = clock s.
Proof.
  revert s. induction recurrences as [|r rest IH]; intros s.
  - exists s. split; [reflexivity|]. split; [apply Grows_refl | reflexivity].
  - set (s1 := {| task := setCalendarTrigger
                            (CalendarTriggers (Task_Triggers (task s)) ++ [mk r])
                            (task s);
                  warnings := warnings s; clock := clock s |}).
    destruct (IH s1) as (s' & Hrun & Hg & Hclk).
    exists s'. split; [|split].
    + rewrite (forRange_continue _ r rest s s1); [exact Hrun|].
      rewrite (bind_run _ _ s s1 tt); [reflexivity|].
      apply addCalendarTrigger_run.
    + change (map mk (r :: rest)) with ([mk r] ++ map mk rest).
      change (@nil TimeTrigger) with (@nil TimeTrigger ++ []).
      change (@nil LogEntry) with (@nil LogEntry ++ []).
      apply (Grows_trans s s1 s'); [|exact Hg].
      split; simpl; rewrite ?app_nil_r; try reflexivity; repeat split.
    + rewrite Hclk. reflexivity.
Qed.

Lemma getRepetitionDuration_eq (start : Time) (recurrences : list Time) :
  recurrences <> [] ->
  getRepetitionDuration start recurrences =
    Some (if last recurrences start - start =? 1439 * 60
          then 1440 * 60
          else last recurrences start - start).
Proof.
  intros Hne. unfold getRepetitionDuration.
  rewrite (index_last recurrences start) by assumption.
  unfold period.Between, period.DurationApprox.
  set (span := last recurrences start - start).
  replace (span * Second =? 1439 * Minute) with (span =? 1439 * 60);
    [reflexivity|].
  unfold Minute, Second, Nanosecond.
  destruct (Z.eqb_spec span (1439 * 60)) as [->|Hne']; [reflexivity|].
  symmetry. apply Z.eqb_neq. lia.
Qed.

Lemma last_progression (t0 d x : Z) (n : nat) :
  last (progression t0 d (S n)) x = t0 + Z.of_nat n * d.
Proof.
  revert t0. induction n as [|n IH]; intros t0.
  - simpl. lia.
  - change (progression t0 d (S (S n)))
      with (t0 :: progression (t0 + d) d (S n)).
    change (last (t0 :: progression (t0 + d) d (S n)) x)
      with (last (progression (t0 + d) d (S n)) x).
    rewrite IH. lia.
Qed.

Lemma NewOf_seconds (d : Z) : 0 <= d -> period.NewOf (d * Second) = d.
Proof.
  intros Hd. unfold period.NewOf, Second, Nanosecond.
  rewrite Z.quot_div_nonneg by lia. apply Z.div_mul. lia.
Qed.

Section Outcomes.

Variable K : Constants.
Variable Now : nat -> Time.

(** The three branches the daily and the weekly synthesizer share past
    the first two tests, for the trigger shape [mk] of each. *)
Ltac enter synth start recurrences :=
  unfold synth, bind, timeNow; fold start; fold recurrences.

Lemma addDailyTrigger_single (schedule : calendar.Event) (s : State) (r : Time) :
  let start := calendar.Next schedule (Now (clock s)) in
  calendar.GetAllInBetween schedule start (Add start (24 * Hour)) = [r] ->
  exists s',
    addDailyTrigger K Now schedule s = Some (tt, s') /\
    Grows s s' [] [dailyTrigger K r None] [].
Proof.
  intros start Hrec. unfold addDailyTrigger, bind, timeNow. fold start.
  rewrite Hrec. change (len [r] =? 0) with false. change (len [r] =? 1) with true.
  cbv iota. rewrite index_0. unfold orPanic. rewrite addCalendarTrigger_run.
  eexists. split; [reflexivity|].
  split; simpl; rewrite ?app_nil_r; try reflexivity; repeat split.
Qed.

Lemma addWeeklyTrigger_single (schedule : calendar.Event) (s : State) (r : Time) :
  let start := calendar.Next schedule (Now (clock s)) in
  calendar.GetAllInBetween schedule start (Add start (24 * Hour)) = [r] ->
  exists s',
    addWeeklyTrigger K Now schedule s = Some (tt, s') /\
    Grows s s' [] [weeklyTrigger K schedule r None] [].
Proof.
  intros start Hrec. unfold addWeeklyTrigger, bind, timeNow. fold start.
  rewrite Hrec. change (len [r] =? 0) with false. change (len [r] =? 1) with true.
  cbv iota. rewrite index_0. unfold orPanic. rewrite addCalendarTrigger_run.
  eexists. split; [reflexivity|].
  split; simpl; rewrite ?app_nil_r; try reflexivity; repeat split.
Qed.

(** What [uniform] gives once the list has two recurrences or more. *)
Lemma uniform_inv (start : Time) (recurrences : list Time) :
  (len recurrences =? 0) = false ->
  uniform recurrences = true ->
  exists differences c0 duration,
    compileDifferences recurrences = Some (differences, [c0]) /\
    getRepetitionDuration start recurrences = Some duration.
Proof.
  intros H0 Hu. destruct recurrences as [|r0 rest]; [discriminate|].
  destruct (getRepetitionDuration_nonempty start (r0 :: rest))
    as (duration & Hdur & _); [discriminate|].
  unfold uniform in Hu.
  destruct (compileDifferences (r0 :: rest)) as [[differences compact]|];
    [|discriminate].
  destruct (len_one_singleton _ Hu) as [c0 ->].
  exists differences, c0, duration. split; [reflexivity | exact Hdur].
Qed.

Lemma addDailyTrigger_uniform (schedule : calendar.Event) (s : State) :
  let start := calendar.Next schedule (Now (clock s)) in
  let recurrences :=
    calendar.GetAllInBetween schedule start (Add start (24 * Hour)) in
  (len recurrences =? 0) = false ->
  (len recurrences =? 1) = false ->
  uniform recurrences = true ->
  exists s' differences c0 duration,
    compileDifferences recurrences = Some (differences, [c0]) /\
    getRepetitionDuration start recurrences = Some duration /\
    addDailyTrigger K Now schedule s = Some (tt, s') /\
    Grows s s' []
      [dailyTrigger K start
         (Some {| Duration_ := duration; Interval := period.NewOf c0 |})] [].
Proof.
  intros start recurrences H0 H1 Hu.
  destruct (uniform_inv start recurrences H0 Hu)
    as (differences & c0 & duration & Hc & Hdur).
  enter addDailyTrigger start recurrences.
  rewrite H0, H1. unfold orPanic. rewrite Hc. cbv beta iota. cbn [snd].
  change (len [c0] =? 1) with true. cbv iota. rewrite index_0, Hdur.
  rewrite addCalendarTrigger_run.
  eexists; exists differences, c0, duration.
  split; [reflexivity|]. split; [reflexivity|]. split; [reflexivity|].
  split; simpl; rewrite ?app_nil_r; try reflexivity; repeat split.
Qed.

Lemma addWeeklyTrigger_uniform (schedule : calendar.Event) (s : State) :
  let start := calendar.Next schedule (Now (clock s)) in
  let recurrences :=
    calendar.GetAllInBetween schedule start (Add start (24 * Hour)) in
  (len recurrences =? 0) = false ->
  (len recurrences =? 1) = false ->
  uniform recurrences = true ->
  exists s' differences c0 duration,
    compileDifferences recurrences = Some (differences, [c0]) /\
    getRepetitionDuration start recurrences = Some duration /\
    addWeeklyTrigger K Now schedule s = Some (tt, s') /\
    Grows s s' []
      [weeklyTrigger K schedule start
         (Some {| Duration_ := duration; Interval := period.NewOf c0 |})] [].
Proof.
  intros start recurrences H0 H1 Hu.
  destruct (uniform_inv start recurrences H0 Hu)
    as (differences & c0 & duration & Hc & Hdur).
  enter addWeeklyTrigger start recurrences.
  rewrite H0, H1. unfold orPanic. rewrite Hc. cbv beta iota. cbn [snd].
  change (len [c0] =? 1) with true. cbv iota. rewrite index_0, Hdur.
  rewrite addCalendarTrigger_run.
  eexists; exists differences, c0, duration.
  split; [reflexivity|]. split; [reflexivity|]. split; [reflexivity|].
  split; simpl; rewrite ?app_nil_r; try reflexivity; repeat split.
Qed.

Lemma addDailyTrigger_install (schedule : calendar.Event) (s : State) :
  let start := calendar.Next schedule (Now (clock s)) in
  let recurrences :=
    calendar.GetAllInBetween schedule start (Add start (24 * Hour)) in
  irregular recurrences = true ->
  len recurrences <= maxTriggers K ->
  exists s',
    addDailyTrigger K Now schedule s = Some (tt, s') /\
    Grows s s' [] (map (fun r => dailyTrigger K r None) recurrences) [].
Proof.
  intros start recurrences Hirr Hcap.
  destruct (irregular_inv _ Hirr) as (H0 & H1 & differences & compact & Hc & Hu).
  assert (Hle : (len recurrences >? maxTriggers K) = false)
    by (destruct (Z.gtb_spec (len recurrences) (maxTriggers K)); [lia | reflexivity]).
  destruct (forRange_install (fun r => dailyTrigger K r None) recurrences
              {| task := task s; warnings := warnings s; clock := S (clock s) |})
    as (s' & Hrun & Hg & _).
  exists s'. split; [|apply Grows_tick; exact Hg].
  enter addDailyTrigger start recurrences.
  rewrite H0, H1. unfold orPanic. rewrite Hc. cbv beta iota. cbn [snd].
  rewrite Hu, Hle. unfold bind, dailyTrigger in Hrun. rewrite Hrun. reflexivity.
Qed.

Lemma addWeeklyTrigger_install (schedule : calendar.Event) (s : State) :
  let start := calendar.Next schedule (Now (clock s)) in
  let recurrences :=
    calendar.GetAllInBetween schedule start (Add start (24 * Hour)) in
  irregular recurrences = true ->
  len recurrences <= maxTriggers K ->
  exists s',
    addWeeklyTrigger K Now schedule s = Some (tt, s') /\
    Grows s s' [] (map (fun r => weeklyTrigger K schedule r None) recurrences) [].
Proof.
  intros start recurrences Hirr Hcap.
  destruct (irregular_inv _ Hirr) as (H0 & H1 & differences & compact & Hc & Hu).
  assert (Hle : (len recurrences >? maxTriggers K) = false)
    by (destruct (Z.gtb_spec (len recurrences) (maxTriggers K)); [lia | reflexivity]).
  destruct (forRange_install (fun r => weeklyTrigger K schedule r None) recurrences
              {| task := task s; warnings := warnings s; clock := S (clock s) |})
    as (s' & Hrun & Hg & _).
  exists s'. split; [|apply Grows_tick; exact Hg].
  enter addWeeklyTrigger start recurrences.
  rewrite H0, H1. unfold orPanic. rewrite Hc. cbv beta iota. cbn [snd].
  rewrite Hu, Hle. unfold bind, weeklyTrigger in Hrun.
  unfold scheduleByWeek. rewrite Hrun. reflexivity.
Qed.

(** The monthly synthesizer, once past its two tests, with the day and
    the weekday not both constrained. *)
Lemma addMonthlyTrigger_install (schedule : calendar.Event) (s : State) :
  let start := calendar.Next schedule (Now (clock s)) in
  let recurrences :=
    calendar.GetAllInBetween schedule start (Add start (24 * Hour)) in
  (len recurrences =? 0) = false ->
  len recurrences <= maxTriggers K ->
  calendar.HasValue (calendar.WeekDay schedule)
    && calendar.HasValue (calendar.Day schedule) = false ->
  exists s',
    addMonthlyTrigger K Now schedule s = Some (tt, s') /\
    Grows s s' []
      (map (if calendar.HasValue (calendar.WeekDay schedule)
            then monthlyByWeekdayTrigger K schedule
            else monthlyByDateTrigger K schedule) recurrences) [].
Proof.
  intros start recurrences H0 Hcap Hboth.
  assert (Hle : (len recurrences >? maxTriggers K) = false)
    by (destruct (Z.gtb_spec (len recurrences) (maxTriggers K)); [lia | reflexivity]).
  destruct (forRange_install
              (if calendar.HasValue (calendar.WeekDay schedule)
               then monthlyByWeekdayTrigger K schedule
               else monthlyByDateTrigger K schedule) recurrences
              {| task := task s; warnings := warnings s; clock := S (clock s) |})
    as (s' & Hrun & Hg & _).
  exists s'. split; [|apply Grows_tick; exact Hg].
  enter addMonthlyTrigger start recurrences.
  rewrite H0, Hle, Hboth.
  destruct (calendar.HasValue (calendar.WeekDay schedule));
    unfold bind, monthlyByWeekdayTrigger, monthlyByDateTrigger in Hrun;
    cbv iota; rewrite Hrun; reflexivity.
Qed.

Lemma addMonthlyTrigger_over_cap (schedule : calendar.Event) (s : State) :
  let start := calendar.Next schedule (Now (clock s)) in
  let recurrences :=
    calendar.GetAllInBetween schedule start (Add start (24 * Hour)) in
  (len recurrences =? 0) = false ->
  maxTriggers K < len recurrences ->
  addMonthlyTrigger K Now schedule s
    = Some (tt, warned s (tooManyTriggersEntry K recurrences)).
Proof.
  intros start recurrences H0 Hcap. apply Z.gtb_lt in Hcap.
  enter addMonthlyTrigger start recurrences.
  rewrite H0, Hcap. reflexivity.
Qed.

End Outcomes.

Lemma uniform_two_or_more (recurrences : list Time) :
  uniform recurrences = true ->
  (len recurrences =? 0) = false /\ (len recurrences =? 1) = false.
Proof.
  destruct recurrences as [|r0 [|r1 rest]]; intros Hu.
  - discriminate.
  - discriminate.
  - apply len_two_or_more.
Qed.

(** C7: when the daily or the weekly synthesizer detects a uniform
    repetition (the compact differences of the recurrences have one
    element), the one trigger it appends carries a repetition pattern
    whose duration is the last recurrence minus the start of the
    window, except that exactly 1439 minutes become
    [NewHMS 0 1440 0]; the list beginning at the start of the window
    (the event's next firing), that is the last instant minus the
    first. *)
Theorem repetition_duration_span (K : Constants) (Now : nat -> Time)
  (schedule : calendar.Event) (s : State) :
  let start := calendar.Next schedule (Now (clock s)) in
  let recurrences :=
    calendar.GetAllInBetween schedule start (Add start (24 * Hour)) in
  let promoted := fun span : Z =>
    if span =? 1439 * 60 then period.NewHMS 0 1440 0 else span in
  uniform recurrences = true ->
  exists sd sw pattern,
    addDailyTrigger K Now schedule s = Some (tt, sd) /\
    Grows s sd [] [dailyTrigger K start (Some pattern)] [] /\
    addWeeklyTrigger K Now schedule s = Some (tt, sw) /\
    Grows s sw [] [weeklyTrigger K schedule start (Some pattern)] [] /\
    Duration_ pattern = promoted (last recurrences start - start) /\
    (forall first,
        hd_error recurrences = Some first -> start = first ->
        Duration_ pattern = promoted (last recurrences first - first)).
Proof.
  intros start recurrences promoted Hu.
  destruct (uniform_two_or_more recurrences Hu) as [H0 H1].
  destruct (addDailyTrigger_uniform K Now schedule s H0 H1 Hu)
    as (sd & differences & c0 & duration & Hc & Hdur & Hrund & Hgd).
  destruct (addWeeklyTrigger_uniform K Now schedule s H0 H1 Hu)
    as (sw & differences' & c0' & duration' & Hc' & Hdur' & Hrunw & Hgw).
  fold start in Hc, Hc', Hdur, Hdur', Hgd, Hgw.
  fold recurrences in Hc, Hc', Hdur, Hdur'.
  rewrite Hc in Hc'. injection Hc' as _ <-.
  rewrite Hdur in Hdur'. injection Hdur' as <-.
  assert (Hne : recurrences <> [])
    by (intros Hnil; rewrite Hnil in H0; discriminate).
  rewrite (getRepetitionDuration_eq start recurrences Hne) in Hdur.
  injection Hdur as Hduration.
  exists sd, sw, {| Duration_ := duration; Interval := period.NewOf c0 |}.
  split; [exact Hrund|]. split; [exact Hgd|].
  split; [exact Hrunw|]. split; [exact Hgw|].
  assert (Hspan : duration = promoted (last recurrences start - start))
    by (symmetry; exact Hduration).
  split; [exact Hspan|].
  intros first _ <-. exact Hspan.
Qed.

Lemma repetition_duration_span_witness :
  exists sd pattern,
    addDailyTrigger exampleConstants (fun _ => 0)
      (exampleEvent true false false anyValue anyValue
                    [0; 28780; 57560; 86340])
      exampleState = Some (tt, sd) /\
    CalendarTriggers (Task_Triggers (task sd))
      = [dailyTrigger exampleConstants 0 (Some pattern)] /\
    Duration_ pattern = period.NewHMS 0 1440 0.
Proof.
  destruct (repetition_duration_span exampleConstants (fun _ => 0)
              (exampleEvent true false false anyValue anyValue
                            [0; 28780; 57560; 86340])
              exampleState eq_refl)
    as (sd & sw & pattern & Hrun & Hg & _ & _ & Hd & _).
  exists sd, pattern. split; [exact Hrun|].
  split; [exact (grows_calendar _ _ _ _ _ Hg) | exact Hd].
Defined.

Section EventOutcomes.

Variable K : Constants.
Variable Now : nat -> Time.

Lemma len_map {A B : Type} (f : A -> B) (l : list A) : len (map f l) = len l.
Proof. unfold len. rewrite length_map. reflexivity. Qed.

Lemma len_app {A : Type} (l l' : list A) : len (l ++ l') = len l + len l'.
Proof. unfold len. rewrite length_app. lia. Qed.

Lemma addDailyTrigger_empty (schedule : calendar.Event) (s : State) :
  let start := calendar.Next schedule (Now (clock s)) in
  calendar.GetAllInBetween schedule start (Add start (24 * Hour)) = [] ->
  addDailyTrigger K Now schedule s
    = Some (tt, warned s
                  {| format := "cannot convert schedule '%s' into a daily trigger";
                     args := [ArgS (calendar.String schedule)] |}).
Proof.
  intros start Hrec. unfold addDailyTrigger, bind, timeNow. fold start.
  rewrite Hrec. reflexivity.
Qed.

Lemma addWeeklyTrigger_empty (schedule : calendar.Event) (s : State) :
  let start := calendar.Next schedule (Now (clock s)) in
  calendar.GetAllInBetween schedule start (Add start (24 * Hour)) = [] ->
  addWeeklyTrigger K Now schedule s
    = Some (tt, warned s
                  {| format := "cannot convert schedule '%s' into a weekly trigger";
                     args := [ArgS (calendar.String schedule)] |}).
Proof.
  intros start Hrec. unfold addWeeklyTrigger, bind, timeNow. fold start.
  rewrite Hrec. reflexivity.
Qed.

Lemma addMonthlyTrigger_empty (schedule : calendar.Event) (s : State) :
  let start := calendar.Next schedule (Now (clock s)) in
  calendar.GetAllInBetween schedule start (Add start (24 * Hour)) = [] ->
  addMonthlyTrigger K Now schedule s
    = Some (tt, warned s
                  {| format := "cannot convert schedule '%s' into a monthly trigger";
                     args := [ArgS (calendar.String schedule)] |}).
Proof.
  intros start Hrec. unfold addMonthlyTrigger, bind, timeNow. fold start.
  rewrite Hrec. reflexivity.
Qed.

Lemma outcome_warned (s : State) (w : LogEntry) :
  exists s' cs ws,
    Some (tt, warned s w) = Some (tt, s') /\
    Grows s s' [] cs ws /\ EventOutcome K [] cs ws.
Proof.
  exists (warned s w), [], [w]. split; [reflexivity|].
  split; [apply Grows_warned|].
  split; [right; eauto|]. split; [simpl; lia|]. rewrite len_nil. lia.
Qed.

Lemma outcome_one (c : CalendarTrigger) : EventOutcome K [] [c] [].
Proof.
  split; [left; split; [reflexivity | simpl; lia]|].
  split; [simpl; lia|]. rewrite len_cons, len_nil. lia.
Qed.

Lemma outcome_install {A : Type} (mk : A -> CalendarTrigger) (l : list A) :
  (len l =? 0) = false -> len l <= maxTriggers K ->
  EventOutcome K [] (map mk l) [].
Proof.
  intros H0 Hcap. apply Z.eqb_neq in H0. pose proof (len_nonneg l) as Hl.
  split; [left; split; [reflexivity|]|].
  - rewrite length_map. unfold len in *. simpl. lia.
  - split; [simpl; lia|]. rewrite len_map. lia.
Qed.

Lemma irregular_from_tests (recurrences : list Time) :
  (len recurrences =? 0) = false ->
  (len recurrences =? 1) = false ->
  uniform recurrences = false ->
  irregular recurrences = true.
Proof.
  intros H0 H1 Hu. unfold irregular. rewrite Hu.
  apply Z.eqb_neq in H0, H1. pose proof (len_nonneg recurrences).
  apply andb_true_iff. split; [apply Z.leb_le; lia | reflexivity].
Qed.

Lemma addDailyTrigger_outcome (schedule : calendar.Event) (s : State) :
  exists s' cs ws,
    addDailyTrigger K Now schedule s = Some (tt, s') /\
    Grows s s' [] cs ws /\ EventOutcome K [] cs ws.
Proof.
  set (start := calendar.Next schedule (Now (clock s))).
  set (recurrences :=
         calendar.GetAllInBetween schedule start (Add start (24 * Hour))).
  destruct (len recurrences =? 0) eqn:H0.
  { rewrite (addDailyTrigger_empty schedule s (len_zero_nil _ H0)).
    apply outcome_warned. }
  destruct (len recurrences =? 1) eqn:H1.
  { destruct (len_one_singleton _ H1) as [r Hr].
    destruct (addDailyTrigger_single K Now schedule s r Hr) as (s' & Hrun & Hg).
    exists s', [dailyTrigger K r None], [].
    split; [exact Hrun|]. split; [exact Hg | apply outcome_one]. }
  destruct (uniform recurrences) eqn:Hu.
  { destruct (addDailyTrigger_uniform K Now schedule s H0 H1 Hu)
      as (s' & differences & c0 & duration & _ & _ & Hrun & Hg).
    eexists s', [_], []. split; [exact Hrun|]. split; [exact Hg | apply outcome_one]. }
  pose proof (irregular_from_tests _ H0 H1 Hu) as Hirr.
  destruct (Z_lt_le_dec (maxTriggers K) (len recurrences)) as [Hover|Hcap].
  - rewrite (addDailyTrigger_cap K Now schedule s Hirr Hover).
    apply outcome_warned.
  - destruct (addDailyTrigger_install K Now schedule s Hirr Hcap) as (s' & Hrun & Hg).
    eexists s', _, []. split; [exact Hrun|]. split; [exact Hg|].
    apply outcome_install; assumption.
Qed.

Lemma addWeeklyTrigger_outcome (schedule : calendar.Event) (s : State) :
  exists s' cs ws,
    addWeeklyTrigger K Now schedule s = Some (tt, s') /\
    Grows s s' [] cs ws /\ EventOutcome K [] cs ws.
Proof.
  set (start := calendar.Next schedule (Now (clock s))).
  set (recurrences :=
         calendar.GetAllInBetween schedule start (Add start (24 * Hour))).
  destruct (len recurrences =? 0) eqn:H0.
  { rewrite (addWeeklyTrigger_empty schedule s (len_zero_nil _ H0)).
    apply outcome_warned. }
  destruct (len recurrences =? 1) eqn:H1.
  { destruct (len_one_singleton _ H1) as [r Hr].
    destruct (addWeeklyTrigger_single K Now schedule s r Hr) as (s' & Hrun & Hg).
    eexists s', [_], [].
    split; [exact Hrun|]. split; [exact Hg | apply outcome_one]. }
  destruct (uniform recurrences) eqn:Hu.
  { destruct (addWeeklyTrigger_uniform K Now schedule s H0 H1 Hu)
      as (s' & differences & c0 & duration & _ & _ & Hrun & Hg).
    eexists s', [_], []. split; [exact Hrun|]. split; [exact Hg | apply outcome_one]. }
  pose proof (irregular_from_tests _ H0 H1 Hu) as Hirr.
  destruct (Z_lt_le_dec (maxTriggers K) (len recurrences)) as [Hover|Hcap].
  - rewrite (addWeeklyTrigger_cap K Now schedule s Hirr Hover).
    apply outcome_warned.
  - destruct (addWeeklyTrigger_install K Now schedule s Hirr Hcap) as (s' & Hrun & Hg).
    eexists s', _, []. split; [exact Hrun|]. split; [exact Hg|].
    apply outcome_install; assumption.
Qed.

Lemma addMonthlyTrigger_outcome (schedule : calendar.Event) (s : State) :
  exists s' cs ws,
    addMonthlyTrigger K Now schedule s = Some (tt, s') /\
    Grows s s' [] cs ws /\ EventOutcome K [] cs ws.
Proof.
  set (start := calendar.Next schedule (Now (clock s))).
  set (recurrences :=
         calendar.GetAllInBetween schedule start (Add start (24 * Hour))).
  destruct (len recurrences =? 0) eqn:H0.
  { rewrite (addMonthlyTrigger_empty schedule s (len_zero_nil _ H0)).
    apply outcome_warned. }
  destruct (Z_lt_le_dec (maxTriggers K) (len recurrences)) as [Hover|Hcap].
  { rewrite (addMonthlyTrigger_over_cap K Now schedule s H0 Hover).
    apply outcome_warned. }
  destruct (calendar.HasValue (calendar.WeekDay schedule)
            && calendar.HasValue (calendar.Day schedule)) eqn:Hboth.
  - apply andb_true_iff in Hboth. destruct Hboth as [Hw Hd].
    destruct (addMonthlyTrigger_both K Now schedule s Hw Hd) as [w ->].
    apply outcome_warned.
  - destruct (addMonthlyTrigger_install K Now schedule s H0 Hcap Hboth)
      as (s' & Hrun & Hg).
    eexists s', _, []. split; [exact Hrun|]. split; [exact Hg|].
    apply outcome_install; assumption.
Qed.

Lemma AddSchedules_time (schedule : calendar.Event) (s : State) (t : Time) :
  calendar.AsTime schedule = Some t ->
  AddSchedules K Now [schedule] s
    = Some (tt, {| task := setTimeTrigger
                             (TimeTriggers (Task_Triggers (task s))
                                ++ [{| TT_StartBoundary := Format K t |}])
                             (task s);
                   warnings := warnings s; clock := clock s |}).
Proof.
  intros Ht. unfold AddSchedules. simpl. unfold bind. rewrite Ht.
  rewrite addTimeTrigger_run. reflexivity.
Qed.

Lemma AddSchedules_other (schedule : calendar.Event) (s : State) :
  calendar.AsTime schedule = None ->
  calendar.IsDaily schedule = false ->
  calendar.IsWeekly schedule = false ->
  calendar.IsMonthly schedule = false ->
  AddSchedules K Now [schedule] s
    = Some (tt, {| task := task s;
                   warnings :=
                     warnings s ++
                     [{| format :=
                           "cannot convert schedule '%s' into a task scheduler equivalent";
                         args := [ArgS (calendar.String schedule)] |}];
                   clock := clock s |}).
Proof.
  intros Ht Hd Hw Hm. unfold AddSchedules. simpl. unfold bind.
  rewrite Ht, Hd, Hw, Hm. reflexivity.
Qed.

Lemma AddSchedules_event_outcome (schedule : calendar.Event) (s : State) :
  exists s' ts cs ws,
    AddSchedules K Now [schedule] s = Some (tt, s') /\
    Grows s s' ts cs ws /\ EventOutcome K ts cs ws.
Proof.
  destruct (calendar.AsTime schedule) as [t|] eqn:Ht.
  { rewrite (AddSchedules_time schedule s t Ht).
    eexists _, [_], [], []. split; [reflexivity|]. split.
    - split; simpl; rewrite ?app_nil_r; try reflexivity; repeat split.
    - split; [left; split; [reflexivity | simpl; lia]|].
      split; [simpl; lia|]. rewrite len_nil. lia. }
  destruct (calendar.IsDaily schedule) eqn:Hd.
  { destruct (addDailyTrigger_outcome schedule s) as (s' & cs & ws & Hrun & Hg & Ho).
    exists s', [], cs, ws. split; [|auto].
    apply (AddSchedules_one K Now schedule s s' (addDailyTrigger K Now) Ht);
      [auto | exact Hrun]. }
  destruct (calendar.IsWeekly schedule) eqn:Hw.
  { destruct (addWeeklyTrigger_outcome schedule s) as (s' & cs & ws & Hrun & Hg & Ho).
    exists s', [], cs, ws. split; [|auto].
    apply (AddSchedules_one K Now schedule s s' (addWeeklyTrigger K Now) Ht);
      [auto | exact Hrun]. }
  destruct (calendar.IsMonthly schedule) eqn:Hm.
  { destruct (addMonthlyTrigger_outcome schedule s) as (s' & cs & ws & Hrun & Hg & Ho).
    exists s', [], cs, ws. split; [|auto].
    apply (AddSchedules_one K Now schedule s s' (addMonthlyTrigger K Now) Ht);
      [auto 10 | exact Hrun]. }
  rewrite (AddSchedules_other schedule s Ht Hd Hw Hm).
  eexists _, [], [], [_]. split; [reflexivity|]. split.
  - split; simpl; rewrite ?app_nil_r; try reflexivity; repeat split.
  - split; [right; eauto|]. split; [simpl; lia|]. rewrite len_nil. lia.
Qed.

(** No turn of a loop returns from the function. *)
Lemma forRange_app {A : Type} (body : A -> M Flow) (l1 l2 : list A) (s : State) :
  (forall x s0, body x s0 = None \/ exists s1, body x s0 = Some (Continue, s1)) ->
  forRange (l1 ++ l2) body s =
    match forRange l1 body s with
    | Some (_, s1) => forRange l2 body s1
    | None => None
    end.
Proof.
  intros Hbody. revert s. induction l1 as [|x l1 IH]; intros s; [reflexivity|].
  simpl. unfold bind.
  destruct (Hbody x s) as [Hnone|[s1 Hsome]].
  - rewrite Hnone. reflexivity.
  - rewrite Hsome. apply IH.
Qed.

Lemma AddSchedules_app_run (l1 l2 : list calendar.Event) (s : State) :
  AddSchedules K Now (l1 ++ l2) s =
    bind (AddSchedules K Now l1) (fun _ => AddSchedules K Now l2) s.
Proof.
  unfold AddSchedules.
  match goal with |- context [forRange l1 ?b] => set (body := b) end.
  assert (Hbody : forall x s0,
             body x s0 = None \/ exists s1, body x s0 = Some (Continue, s1)).
  { intros x s0. unfold body, bind.
    destruct (calendar.AsTime x).
    { destruct (addTimeTrigger K t s0) as [[[] s1]|];
        [right; eexists; reflexivity | left; reflexivity]. }
    destruct (calendar.IsDaily x).
    { destruct (addDailyTrigger K Now x s0) as [[[] s1]|];
        [right; eexists; reflexivity | left; reflexivity]. }
    destruct (calendar.IsWeekly x).
    { destruct (addWeeklyTrigger K Now x s0) as [[[] s1]|];
        [right; eexists; reflexivity | left; reflexivity]. }
    destruct (calendar.IsMonthly x).
    { destruct (addMonthlyTrigger K Now x s0) as [[[] s1]|];
        [right; eexists; reflexivity | left; reflexivity]. }
    right. eexists. reflexivity. }
  unfold bind at 1. rewrite (forRange_app body l1 l2 s Hbody).
  unfold bind. destruct (forRange l1 body s) as [[f s1]|]; reflexivity.
Qed.

End EventOutcomes.

(** ** Further properties of the builder *)

Section BuilderProperties.

Variable K : Constants.
Variable Now : nat -> Time.

(** X6: when the event has no recurrence in the 24 hours from its next
    firing, each of the three synthesizers logs its own "cannot
    convert" warning and leaves the task as it was. *)
Theorem no_recurrence_warns (schedule : calendar.Event) (s : State) :
  let start := calendar.Next schedule (Now (clock s)) in
  calendar.GetAllInBetween schedule start (Add start (24 * Hour)) = [] ->
  addDailyTrigger K Now schedule s
    = Some (tt, warned s
                  {| format := "cannot convert schedule '%s' into a daily trigger";
                     args := [ArgS (calendar.String schedule)] |}) /\
  addWeeklyTrigger K Now schedule s
    = Some (tt, warned s
                  {| format := "cannot convert schedule '%s' into a weekly trigger";
                     args := [ArgS (calendar.String schedule)] |}) /\
  addMonthlyTrigger K Now schedule s
    = Some (tt, warned s
                  {| format := "cannot convert schedule '%s' into a monthly trigger";
                     args := [ArgS (calendar.String schedule)] |}).
Proof.
  intros start Hrec. split; [|split].
  - apply addDailyTrigger_empty; exact Hrec.
  - apply addWeeklyTrigger_empty; exact Hrec.
  - apply addMonthlyTrigger_empty; exact Hrec.
Qed.

(** X7: with exactly one recurrence in the window, the daily and the
    weekly synthesizer append exactly one trigger, starting at that
    recurrence, without repetition pattern, and log nothing. *)
Theorem single_recurrence_trigger (schedule : calendar.Event) (s : State)
  (r : Time) :
  let start := calendar.Next schedule (Now (clock s)) in
  calendar.GetAllInBetween schedule start (Add start (24 * Hour)) = [r] ->
  (exists s',
      addDailyTrigger K Now schedule s = Some (tt, s') /\
      Grows s s' [] [dailyTrigger K r None] []) /\
  (exists s',
      addWeeklyTrigger K Now schedule s = Some (tt, s') /\
      Grows s s' [] [weeklyTrigger K schedule r None] []).
Proof.
  intros start Hrec. split.
  - apply addDailyTrigger_single; exact Hrec.
  - apply addWeeklyTrigger_single; exact Hrec.
Qed.

(** X8: with an irregular list of recurrences within the cap, the daily
    and the weekly synthesizer append one trigger per recurrence, in
    order, each without repetition pattern, and log nothing. *)
Theorem irregular_within_cap (schedule : calendar.Event) (s : State) :
  let start := calendar.Next schedule (Now (clock s)) in
  let recurrences :=
    calendar.GetAllInBetween schedule start (Add start (24 * Hour)) in
  irregular recurrences = true ->
  len recurrences <= maxTriggers K ->
  (exists s',
      addDailyTrigger K Now schedule s = Some (tt, s') /\
      Grows s s' [] (map (fun r => dailyTrigger K r None) recurrences) []) /\
  (exists s',
      addWeeklyTrigger K Now schedule s = Some (tt, s') /\
      Grows s s' []
            (map (fun r => weeklyTrigger K schedule r None) recurrences) []).
Proof.
  intros start recurrences Hirr Hcap. split.
  - apply addDailyTrigger_install; assumption.
  - apply addWeeklyTrigger_install; assumption.
Qed.

Lemma progression_facts (start d : Z) (n : nat) :
  0 < d -> d * Second <= maxDuration ->
  let recurrences := progression start d (S (S n)) in
  (len recurrences =? 0) = false /\
  (len recurrences =? 1) = false /\
  uniform recurrences = true /\
  compileDifferences recurrences
    = Some (repeat (d * Second) (S n), [d * Second]) /\
  getRepetitionDuration start recurrences =
    Some (if Z.of_nat (S n) * d =? 1439 * 60 then 1440 * 60
          else Z.of_nat (S n) * d).
Proof.
  intros Hd Hmax recurrences.
  pose proof (compileDifferences_on_progression start d n Hd Hmax) as Hc.
  fold recurrences in Hc.
  destruct (len_two_or_more start (start + d) (progression (start + d + d) d n))
    as [H0 H1].
  split; [exact H0|]. split; [exact H1|].
  split; [unfold uniform; rewrite Hc; reflexivity|].
  split; [exact Hc|].
  rewrite getRepetitionDuration_eq by discriminate.
  unfold recurrences. rewrite last_progression.
  replace (start + Z.of_nat (S n) * d - start) with (Z.of_nat (S n) * d) by lia.
  reflexivity.
Qed.

(** X9: when the recurrences in the window are n >= 2 instants d > 0
    seconds apart beginning at the next firing, the daily and the
    weekly synthesizer append a single trigger starting at the next
    firing, whose repetition has interval d and duration (n-1)*d, or
    1440 minutes when that is 1439 minutes. *)
Theorem uniform_progression_pattern (schedule : calendar.Event) (s : State)
  (d : Z) (n : nat) :
  let start := calendar.Next schedule (Now (clock s)) in
  let pattern :=
    {| Duration_ := if Z.of_nat (S n) * d =? 1439 * 60 then 1440 * 60
                    else Z.of_nat (S n) * d;
       Interval := d |} in
  calendar.GetAllInBetween schedule start (Add start (24 * Hour))
    = progression start d (S (S n)) ->
  0 < d -> d * Second <= maxDuration ->
  (exists s',
      addDailyTrigger K Now schedule s = Some (tt, s') /\
      Grows s s' [] [dailyTrigger K start (Some pattern)] []) /\
  (exists s',
      addWeeklyTrigger K Now schedule s = Some (tt, s') /\
      Grows s s' [] [weeklyTrigger K schedule start (Some pattern)] []).
Proof.
  intros start pattern Hrec Hd Hmax.
  destruct (progression_facts start d n Hd Hmax) as (H0 & H1 & Hu & Hc & Hdur).
  rewrite <- Hrec in H0, H1, Hu, Hc, Hdur.
  split.
  - destruct (addDailyTrigger_uniform K Now schedule s H0 H1 Hu)
      as (s' & differences & c0 & duration & Hc' & Hdur' & Hrun & Hg).
    fold start in Hc', Hdur'. rewrite Hc in Hc'. rewrite Hdur in Hdur'.
    injection Hc' as _ <-. injection Hdur' as <-.
    rewrite NewOf_seconds in Hg by lia.
    exists s'. split; [exact Hrun | exact Hg].
  - destruct (addWeeklyTrigger_uniform K Now schedule s H0 H1 Hu)
      as (s' & differences & c0 & duration & Hc' & Hdur' & Hrun & Hg).
    fold start in Hc', Hdur'. rewrite Hc in Hc'. rewrite Hdur in Hdur'.
    injection Hc' as _ <-. injection Hdur' as <-.
    rewrite NewOf_seconds in Hg by lia.
    exists s'. split; [exact Hrun | exact Hg].
Qed.

(** X10: the monthly synthesizer does not look for a repetition: with
    recurrences within the cap and the day and the weekday not both
    constrained, it appends one trigger per recurrence, in order,
    scheduled by day of the week in all weeks when the weekday is
    constrained and by day of the month otherwise, and logs nothing. *)
Theorem monthly_within_cap (schedule : calendar.Event) (s : State) :
  let start := calendar.Next schedule (Now (clock s)) in
  let recurrences :=
    calendar.GetAllInBetween schedule start (Add start (24 * Hour)) in
  recurrences <> [] ->
  len recurrences <= maxTriggers K ->
  calendar.HasValue (calendar.WeekDay schedule)
    && calendar.HasValue (calendar.Day schedule) = false ->
  exists s',
    addMonthlyTrigger K Now schedule s = Some (tt, s') /\
    Grows s s' []
      (map (if calendar.HasValue (calendar.WeekDay schedule)
            then monthlyByWeekdayTrigger K schedule
            else monthlyByDateTrigger K schedule) recurrences) [].
Proof.
  intros start recurrences Hne Hcap Hboth.
  assert (H0 : (len recurrences =? 0) = false).
  { destruct (len recurrences =? 0) eqn:H0; [|reflexivity].
    apply len_zero_nil in H0. contradiction. }
  exact (addMonthlyTrigger_install K Now schedule s H0 Hcap Hboth).
Qed.

(** X11: an event that is neither a point in time nor daily, weekly or
    monthly makes [AddSchedules] log one "cannot convert" warning; the
    task is left as it was and the clock is not read. *)
Theorem unsupported_event_warns (schedule : calendar.Event) (s : State) :
  calendar.AsTime schedule = None ->
  calendar.IsDaily schedule = false ->
  calendar.IsWeekly schedule = false ->
  calendar.IsMonthly schedule = false ->
  AddSchedules K Now [schedule] s
    = Some (tt, {| task := task s;
                   warnings :=
                     warnings s ++
                     [{| format :=
                           "cannot convert schedule '%s' into a task scheduler equivalent";
                         args := [ArgS (calendar.String schedule)] |}];
                   clock := clock s |}).
Proof. apply AddSchedules_other. Qed.

(** X12: on events that are all points in time, whatever their other
    classes, [AddSchedules] appends one time trigger per event, in
    order, formatted from the event's time; it adds no calendar
    trigger, logs nothing and does not read the clock. *)
Theorem time_only_events (schedules : list calendar.Event)
  (times : list Time) (s : State) :
  map calendar.AsTime schedules = map Some times ->
  exists s',
    AddSchedules K Now schedules s = Some (tt, s') /\
    Grows s s' (map (fun t => {| TT_StartBoundary := Format K t |}) times)
          [] [] /\
    clock s' = clock s.
Proof.
  revert times s. induction schedules as [|e rest IH]; intros times s Hmap.
  - destruct times; [|discriminate].
    exists s. split; [reflexivity|]. split; [apply Grows_refl | reflexivity].
  - destruct times as [|t times]; [discriminate|].
    simpl in Hmap. injection Hmap as Ht Hrest.
    change (e :: rest) with ([e] ++ rest).
    rewrite AddSchedules_app_run.
    rewrite (bind_run _ _ s _ tt (AddSchedules_time K Now e s t Ht)).
    match goal with |- context [AddSchedules K Now rest ?s1] =>
      destruct (IH times s1 Hrest) as (s' & Hrun & Hg & Hclk) end.
    exists s'. split; [exact Hrun|]. split; [|exact Hclk].
    change (map (fun t0 => {| TT_StartBoundary := Format K t0 |}) (t :: times))
      with ([{| TT_StartBoundary := Format K t |}]
              ++ map (fun t0 => {| TT_StartBoundary := Format K t0 |}) times).
    change (@nil CalendarTrigger) with (@nil CalendarTrigger ++ []).
    change (@nil LogEntry) with (@nil LogEntry ++ []).
    eapply Grows_trans; [|exact Hg].
    split; simpl; rewrite ?app_nil_r; try reflexivity; repeat split.
Qed.

(** X13: whatever the event, [AddSchedules] on it returns and either
    adds at least one trigger and logs nothing, or logs exactly one
    warning and adds no trigger; it adds at most one time trigger, and
    at most [maxTriggers] calendar triggers (one being always
    allowed). *)
Theorem event_trigger_or_warning (schedule : calendar.Event) (s : State) :
  exists s' ts cs ws,
    AddSchedules K Now [schedule] s = Some (tt, s') /\
    Grows s s' ts cs ws /\
    ((ws = [] /\ (1 <= length ts + length cs)%nat) \/
     (ts = [] /\ cs = [] /\ exists w, ws = [w])) /\
    (length ts <= 1)%nat /\
    len cs <= Z.max 1 (maxTriggers K).
Proof. apply AddSchedules_event_outcome. Qed.

(** X14: calling [AddSchedules] several times in a row is the same as
    calling it once on the concatenation of the lists. *)
Theorem calls_concat (calls : list (list calendar.Event)) (s : State) :
  AddSchedulesCalls K Now calls s = AddSchedules K Now (concat calls) s.
Proof.
  revert s. induction calls as [|schedules calls IH]; intros s; [reflexivity|].
  simpl concat. rewrite AddSchedules_app_run. simpl AddSchedulesCalls.
  unfold bind. destruct (AddSchedules K Now schedules s) as [[[] s1]|];
    [apply IH | reflexivity].
Qed.

(** X15: on any list of events [AddSchedules] returns; it logs at most
    one warning and adds at most one time trigger per event, at most
    [max 1 maxTriggers] calendar triggers per event, and every event
    leaves at least a trigger or a warning. *)
Theorem AddSchedules_totals (schedules : list calendar.Event) (s : State) :
  exists s' ts cs ws,
    AddSchedules K Now schedules s = Some (tt, s') /\
    Grows s s' ts cs ws /\
    (length ws <= length schedules)%nat /\
    (length ts <= length schedules)%nat /\
    len cs <= len schedules * Z.max 1 (maxTriggers K) /\
    (length schedules <= length ts + length cs + length ws)%nat.
Proof.
  revert s. induction schedules as [|e rest IH]; intros s.
  - exists s, [], [], []. split; [reflexivity|]. split; [apply Grows_refl|].
    simpl. rewrite !len_nil. lia.
  - change (e :: rest) with ([e] ++ rest). rewrite AddSchedules_app_run.
    destruct (AddSchedules_event_outcome K Now e s)
      as (s1 & ts1 & cs1 & ws1 & Hrun1 & Hg1 & Hcase & Hts & Hcs).
    rewrite (bind_run _ _ s s1 tt Hrun1).
    destruct (IH s1) as (s' & ts & cs & ws & Hrun & Hg & Hw & Ht & Hc & Hall).
    exists s', (ts1 ++ ts), (cs1 ++ cs), (ws1 ++ ws).
    split; [exact Hrun|]. split; [eapply Grows_trans; eassumption|].
    rewrite !length_app, len_app. change ([e] ++ rest) with (e :: rest).
    rewrite len_cons. simpl length.
    assert (Hws1 : (length ws1 <= 1)%nat)
      by (destruct Hcase as [[-> _]|(_ & _ & w & ->)]; simpl; lia).
    assert (Hsome : (1 <= length ts1 + length cs1 + length ws1)%nat)
      by (destruct Hcase as [[-> ?]|(_ & _ & w & ->)]; simpl; lia).
    repeat split; lia.
Qed.

End BuilderProperties.

(** X16: a run of [AddExecAction] calls never panics and leaves the
    actions in call order after the ones already there; the execution
    context, the triggers, every other field of the task
    (RegistrationInfo, Principals, Settings, XMLName, Version, Xmlns),
    the log and the clock are as they were. *)
Theorem AddExecActions_appends (actions : list ExecAction) (s : State) :
  exists s',
    AddExecActions actions s = Some (tt, s') /\
    Exec (Task_Actions (task s')) = Exec (Task_Actions (task s)) ++ actions /\
    Context_ (Task_Actions (task s')) = Context_ (Task_Actions (task s)) /\
    Task_Triggers (task s') = Task_Triggers (task s) /\
    Task_RegistrationInfo (task s') = Task_RegistrationInfo (task s) /\
    Task_Principals (task s') = Task_Principals (task s) /\
    Task_Settings (task s') = Task_Settings (task s) /\
    Task_XMLName (task s') = Task_XMLName (task s) /\
    Version (task s') = Version (task s) /\
    Xmlns (task s') = Xmlns (task s) /\
    warnings s' = warnings s /\
    clock s' = clock s.
Proof.
  revert s. induction actions as [|action rest IH]; intros s.
  - exists s. rewrite app_nil_r. repeat split.
  - assert (Hone : AddExecAction action s =
                   Some (tt, {| task := setExec
                                          (Exec (Task_Actions (task s)) ++ [action])
                                          (task s);
                                warnings := warnings s; clock := clock s |})).
    { unfold AddExecAction, bind, getTask, modifyTask.
      destruct (Exec (Task_Actions (task s))); reflexivity. }
    simpl AddExecActions. rewrite (bind_run _ _ s _ tt Hone).
    match goal with |- context [AddExecActions rest ?s1] =>
      destruct (IH s1)
        as (s' & Hrun & He & Hc & Ht & Hr & Hp & Hs & Hx & Hv & Hn & Hw & Hk)
    end.
    exists s'. split; [exact Hrun|].
    simpl in He, Hc, Ht, Hr, Hp, Hs, Hx, Hv, Hn, Hw, Hk.
    rewrite He, <- app_assoc. repeat split; assumption.
Qed.

(** *** Concrete runs *)

Lemma no_recurrence_warns_witness :
  addMonthlyTrigger exampleConstants (fun _ => 0)
    (exampleEvent false false true anyValue anyValue []) exampleState
  = Some (tt, warned exampleState
                {| format := "cannot convert schedule '%s' into a monthly trigger";
                   args := [ArgS "example"] |}).
Proof.
  destruct (no_recurrence_warns exampleConstants (fun _ => 0)
              (exampleEvent false false true anyValue anyValue [])
              exampleState eq_refl) as (_ & _ & H).
  exact H.
Defined.

Lemma single_recurrence_trigger_witness :
  exists s',
    addDailyTrigger exampleConstants (fun _ => 0)
      (exampleEvent true false false anyValue anyValue [10800]) exampleState
      = Some (tt, s') /\
    CalendarTriggers (Task_Triggers (task s'))
      = [dailyTrigger exampleConstants 10800 None].
Proof.
  destruct (single_recurrence_trigger exampleConstants (fun _ => 0)
              (exampleEvent true false false anyValue anyValue [10800])
              exampleState 10800 eq_refl) as [(s' & Hrun & Hg) _].
  exists s'. split; [exact Hrun|]. exact (grows_calendar _ _ _ _ _ Hg).
Defined.

Lemma irregular_within_cap_witness :
  exists s',
    addDailyTrigger (withMaxTriggers exampleConstants 60) (fun _ => 0)
      (exampleEvent true false false anyValue anyValue [3600; 7200; 14400])
      exampleState = Some (tt, s') /\
    CalendarTriggers (Task_Triggers (task s'))
      = [dailyTrigger exampleConstants 3600 None;
         dailyTrigger exampleConstants 7200 None;
         dailyTrigger exampleConstants 14400 None].
Proof.
  destruct (irregular_within_cap (withMaxTriggers exampleConstants 60)
              (fun _ => 0)
              (exampleEvent true false false anyValue anyValue
                            [3600; 7200; 14400])
              exampleState) as [(s' & Hrun & Hg) _].
  - reflexivity.
  - vm_compute. discriminate.
  - exists s'. split; [exact Hrun|]. exact (grows_calendar _ _ _ _ _ Hg).
Defined.

Lemma uniform_progression_pattern_witness :
  exists s',
    addDailyTrigger exampleConstants (fun _ => 0)
      (exampleEvent true false false anyValue anyValue
                    [3600; 7200; 10800; 14400])
      exampleState = Some (tt, s') /\
    CalendarTriggers (Task_Triggers (task s'))
      = [dailyTrigger exampleConstants 3600
           (Some {| Duration_ := 10800; Interval := 3600 |})].
Proof.
  destruct (uniform_progression_pattern exampleConstants (fun _ => 0)
              (exampleEvent true false false anyValue anyValue
                            [3600; 7200; 10800; 14400])
              exampleState 3600 2) as [(s' & Hrun & Hg) _].
  - reflexivity.
  - lia.
  - vm_compute. discriminate.
  - exists s'. split; [exact Hrun|]. exact (grows_calendar _ _ _ _ _ Hg).
Defined.

Lemma monthly_within_cap_witness :
  exists s',
    addMonthlyTrigger exampleConstants (fun _ => 0)
      (exampleEvent false false true anyValue
         {| calendar.HasValue := true; calendar.GetRangeValues := [15] |}
         [7200; 10800])
      exampleState = Some (tt, s') /\
    length (CalendarTriggers (Task_Triggers (task s'))) = 2%nat.
Proof.
  destruct (monthly_within_cap exampleConstants (fun _ => 0)
              (exampleEvent false false true anyValue
                 {| calendar.HasValue := true; calendar.GetRangeValues := [15] |}
                 [7200; 10800])
              exampleState) as (s' & Hrun & Hg).
  - discriminate.
  - vm_compute. discriminate.
  - reflexivity.
  - exists s'. split; [exact Hrun|].
    rewrite (grows_calendar _ _ _ _ _ Hg). reflexivity.
Defined.

Lemma unsupported_event_warns_witness :
  exists s',
    AddSchedules exampleConstants (fun _ => 0)
      [exampleEvent false false false anyValue anyValue [7200]] exampleState
      = Some (tt, s') /\
    task s' = task exampleState /\ length (warnings s') = 1%nat.
Proof.
  eexists. split.
  - apply (unsupported_event_warns exampleConstants (fun _ => 0)
             (exampleEvent false false false anyValue anyValue [7200])
             exampleState); reflexivity.
  - split; reflexivity.
Defined.

Lemma time_only_events_witness :
  exists s',
    AddSchedules exampleConstants (fun _ => 0)
      [exampleTimeEvent 0; exampleTimeEvent 86400] exampleState
      = Some (tt, s') /\
    TimeTriggers (Task_Triggers (task s'))
      = [{| TT_StartBoundary := "0" |}; {| TT_StartBoundary := "t" |}].
Proof.
  destruct (time_only_events exampleConstants (fun _ => 0)
              [exampleTimeEvent 0; exampleTimeEvent 86400] [0; 86400]
              exampleState eq_refl) as (s' & Hrun & Hg & _).
  exists s'. split; [exact Hrun|]. exact (grows_time _ _ _ _ _ Hg).
Defined.

(** ** Further properties of the systemd target *)

Section AnalyzerTrace.

Import systemd.

Variable RunErr : Type.
Variable analyze : list string -> string -> option RunErr.

Lemma loadLoop_trace (schedules : list string) :
  forall (total index : Z) (events : list calendar.Event) (trace : list IO),
    snd (loadLoop analyze total index schedules events trace) =
      trace ++ headersAndRuns total index
                 (analysed schedules
                    (firstFailure analyze (ran trace) schedules)).
Proof.
  induction schedules as [|schedule rest IH]; intros total index events trace.
  - simpl. now rewrite app_nil_r.
  - simpl. destruct (String.eqb schedule EmptyString).
    + simpl. now rewrite app_nil_r.
    + rewrite !ran_app. simpl ran. rewrite app_nil_r.
      destruct (analyze (ran trace) schedule) as [err|].
      * simpl. rewrite <- app_assoc. reflexivity.
      * rewrite IH. rewrite !ran_app. simpl ran. rewrite app_nil_r.
        rewrite analysed_later. simpl headersAndRuns.
        rewrite <- !app_assoc. reflexivity.
Qed.

Lemma firstFailure_prefix (pre post history : list string)
  (failure : nat * error RunErr) :
  firstFailure analyze history pre = Some failure ->
  firstFailure analyze history (pre ++ post) = Some failure.
Proof.
  revert history failure. induction pre as [|s pre IH]; intros history failure H.
  - discriminate.
  - simpl in *. destruct (String.eqb s EmptyString); [exact H|].
    destruct (analyze history s); [exact H|].
    destruct (firstFailure analyze (history ++ [s]) pre) as [[i e]|] eqn:Hff;
      [|discriminate].
    rewrite (IH _ _ Hff). exact H.
Qed.

Lemma analysed_prefix (pre post : list string) (failure : nat * error RunErr) :
  firstFailure analyze [] pre = Some failure ->
  analysed (pre ++ post) (Some failure) = analysed pre (Some failure).
Proof.
  destruct failure as [i e]. intros H.
  destruct (firstFailure_sound RunErr analyze _ _ _ _ H)
    as (_ & schedule & Hnth & _).
  assert (Hi : (i < length pre)%nat)
    by (apply nth_error_Some; rewrite Hnth; discriminate).
  destruct e as [m|err]; unfold analysed; rewrite firstn_app.
  - replace (i - length pre)%nat with 0%nat by lia. simpl. apply app_nil_r.
  - replace (S i - length pre)%nat with 0%nat by lia. simpl. apply app_nil_r.
Qed.

End AnalyzerTrace.

(** X17: the trace of [loadSchedules] is, for each schedule the
    analyzer is run on, the header numbered from 1 out of the number
    of schedules given, followed by the run of the analyzer on that
    schedule; nothing is printed for an empty schedule. *)
Theorem loadSchedules_trace (RunErr : Type)
  (analyze : list string -> string -> option RunErr) (schedules : list string) :
  snd (systemd.loadSchedules analyze schedules) =
    headersAndRuns (len schedules) 0
      (systemd.analysed schedules (systemd.firstFailure analyze [] schedules)).
Proof.
  unfold systemd.loadSchedules. rewrite loadLoop_trace. reflexivity.
Qed.

(** X18: once a schedule is empty or rejected, what follows it in the
    list has no effect on the result nor on the analyzer runs: the
    error and the schedules analysed are those of the list cut after
    it. *)
Theorem loadSchedules_ignores_rest (RunErr : Type)
  (analyze : list string -> string -> option RunErr)
  (pre post : list string) :
  systemd.firstFailure analyze [] pre <> None ->
  fst (systemd.loadSchedules analyze (pre ++ post))
    = fst (systemd.loadSchedules analyze pre) /\
  systemd.ran (snd (systemd.loadSchedules analyze (pre ++ post)))
    = systemd.ran (snd (systemd.loadSchedules analyze pre)).
Proof.
  intros Hfail.
  destruct (systemd.firstFailure analyze [] pre) as [failure|] eqn:Hff;
    [clear Hfail | contradiction].
  destruct (loadLoop_spec RunErr analyze (pre ++ post) (len (pre ++ post)) 0 [] [])
    as (He & Herr & Hran & _).
  destruct (loadLoop_spec RunErr analyze pre (len pre) 0 [] [])
    as (He' & Herr' & Hran' & _).
  fold (systemd.loadSchedules analyze (pre ++ post)) in He, Herr, Hran.
  fold (systemd.loadSchedules analyze pre) in He', Herr', Hran'.
  simpl in Herr, Hran, Herr', Hran'.
  rewrite (firstFailure_prefix RunErr analyze pre post [] failure Hff) in Herr, Hran.
  rewrite Hff in Herr', Hran'.
  rewrite (analysed_prefix RunErr analyze pre post failure Hff) in Hran.
  split; [|congruence].
  destruct (systemd.loadSchedules analyze (pre ++ post)) as [[e1 r1] t1].
  destruct (systemd.loadSchedules analyze pre) as [[e2 r2] t2].
  simpl in *. congruence.
Qed.

Lemma loadSchedules_ignores_rest_witness :
  fst (systemd.loadSchedules rejectBad ["ok"%string; "bad"%string; "next"%string])
    = fst (systemd.loadSchedules rejectBad ["ok"%string; "bad"%string]).
Proof.
  destruct (loadSchedules_ignores_rest Z rejectBad
              ["ok"%string; "bad"%string] ["next"%string]) as [H _].
  - discriminate.
  - exact H.
Defined.

(** ** Console logger *)

Lemma lookup_unknown (theme : string) :
  "none"%string <> theme -> "light"%string <> theme -> "dark"%string <> theme ->
  clog.lookup (clog.colorMaps clog.NewConsoleLog) theme = None.
Proof.
  intros Hn Hl Hd.
  cbv [clog.lookup clog.colorMaps clog.NewConsoleLog clog.init].
  apply String.eqb_neq in Hn, Hl, Hd. rewrite Hn, Hl, Hd. reflexivity.
Qed.

Lemma SetTheme_levels (l : clog.ConsoleLog) (theme : string) :
  clog.colorMaps l = clog.colorMaps clog.NewConsoleLog ->
  clog.colorMaps (clog.SetTheme l theme) = clog.colorMaps clog.NewConsoleLog /\
  clog.SetTheme l theme = clog.SetTheme clog.NewConsoleLog theme /\
  (clog.levelMap (clog.SetTheme l theme)
     = clog.mapIndex (clog.colorMaps clog.NewConsoleLog) "none" \/
   clog.levelMap (clog.SetTheme l theme)
     = clog.mapIndex (clog.colorMaps clog.NewConsoleLog) "light" \/
   clog.levelMap (clog.SetTheme l theme)
     = clog.mapIndex (clog.colorMaps clog.NewConsoleLog) "dark").
Proof.
  intros Hmaps. unfold clog.SetTheme. rewrite Hmaps.
  destruct (String.eqb_spec "none" theme) as [<-|Hn];
    [split; [reflexivity|]; split; [reflexivity|]; left; reflexivity|].
  destruct (String.eqb_spec "light" theme) as [<-|Hl];
    [split; [reflexivity|]; split; [reflexivity|]; right; left; reflexivity|].
  destruct (String.eqb_spec "dark" theme) as [<-|Hd];
    [split; [reflexivity|]; split; [reflexivity|]; right; right; reflexivity|].
  rewrite (lookup_unknown theme Hn Hl Hd).
  split; [reflexivity|]. split; [reflexivity|]. left; reflexivity.
Qed.

Lemma themed_from (themes : list string) (l : clog.ConsoleLog) :
  clog.colorMaps l = clog.colorMaps clog.NewConsoleLog ->
  (clog.levelMap l = clog.mapIndex (clog.colorMaps clog.NewConsoleLog) "none" \/
   clog.levelMap l = clog.mapIndex (clog.colorMaps clog.NewConsoleLog) "light" \/
   clog.levelMap l = clog.mapIndex (clog.colorMaps clog.NewConsoleLog) "dark") ->
  let l' := fold_left clog.SetTheme themes l in
  clog.colorMaps l' = clog.colorMaps clog.NewConsoleLog /\
  (clog.levelMap l' = clog.mapIndex (clog.colorMaps clog.NewConsoleLog) "none" \/
   clog.levelMap l' = clog.mapIndex (clog.colorMaps clog.NewConsoleLog) "light" \/
   clog.levelMap l' = clog.mapIndex (clog.colorMaps clog.NewConsoleLog) "dark").
Proof.
  revert l. induction themes as [|theme themes IH]; intros l Hmaps Hlevels.
  - simpl. auto.
  - simpl. destruct (SetTheme_levels l theme Hmaps) as (Hm & _ & Hl).
    apply IH; assumption.
Qed.

Lemma themed_inv (themes : list string) :
  clog.colorMaps (clog.themed themes) = clog.colorMaps clog.NewConsoleLog /\
  (clog.levelMap (clog.themed themes)
     = clog.mapIndex (clog.colorMaps clog.NewConsoleLog) "none" \/
   clog.levelMap (clog.themed themes)
     = clog.mapIndex (clog.colorMaps clog.NewConsoleLog) "light" \/
   clog.levelMap (clog.themed themes)
     = clog.mapIndex (clog.colorMaps clog.NewConsoleLog) "dark").
Proof.
  apply themed_from; [reflexivity | right; left; reflexivity].
Qed.

(** X19: [getLevelName] always returns five characters, and returns
    five blanks exactly for the levels other than Debug, Info, Warning
    and Error. *)
Theorem getLevelName_width (level : clog.LogLevel) :
  String.length (clog.getLevelName level) = 5%nat /\
  (clog.getLevelName level = "     "%string <-> ~ (1 <= level <= 4)).
Proof.
  unfold clog.getLevelName, clog.DebugLevel, clog.InfoLevel,
    clog.WarningLevel, clog.ErrorLevel.
  destruct (Z.eqb_spec level 1); [split; [reflexivity | split; [discriminate | lia]]|].
  destruct (Z.eqb_spec level 2); [split; [reflexivity | split; [discriminate | lia]]|].
  destruct (Z.eqb_spec level 3); [split; [reflexivity | split; [discriminate | lia]]|].
  destruct (Z.eqb_spec level 4); [split; [reflexivity | split; [discriminate | lia]]|].
  split; [reflexivity|]. split; [lia | reflexivity].
Qed.

(** X20: after any number of theme changes, [SetTheme] depends on the
    last theme only: the logger it leaves is the one [SetTheme] gives on
    a new logger, the table of themes is never changed, and a name that
    is none of "none", "light" and "dark" selects the colours of
    "none". *)
Theorem SetTheme_last_wins (themes : list string) (theme : string) :
  clog.themed (themes ++ [theme]) = clog.SetTheme clog.NewConsoleLog theme /\
  clog.colorMaps (clog.themed themes) = clog.colorMaps clog.NewConsoleLog /\
  (theme <> "none"%string -> theme <> "light"%string -> theme <> "dark"%string ->
   clog.themed (themes ++ [theme]) = clog.SetTheme clog.NewConsoleLog "none").
Proof.
  destruct (themed_inv themes) as [Hmaps _].
  assert (Hlast : clog.themed (themes ++ [theme])
                  = clog.SetTheme clog.NewConsoleLog theme).
  { unfold clog.themed. rewrite fold_left_app. simpl.
    apply SetTheme_levels. exact Hmaps. }
  split; [exact Hlast|]. split; [exact Hmaps|].
  intros Hn Hl Hd. rewrite Hlast. unfold clog.SetTheme.
  rewrite (lookup_unknown theme);
    [reflexivity | congruence | congruence | congruence].
Qed.

Lemma SetTheme_last_wins_witness :
  clog.themed ["dark"%string; "solarized"%string]
    = clog.SetTheme clog.NewConsoleLog "none".
Proof.
  destruct (SetTheme_last_wins ["dark"%string] "solarized") as (_ & _ & H).
  apply H; discriminate.
Defined.

Lemma message_out (c : option clog.Color) (v : list Arg) (t : clog.Terminal) :
  clog.out (clog.message c v t) =
    clog.out t
      ++ match c with Some c => [clog.ColorSet c] | None => [] end
      ++ [clog.Println v; clog.ColorUnset].
Proof. destruct c; simpl; rewrite <- ?app_assoc; reflexivity. Qed.

Lemma messagef_out (c : option clog.Color) (fmt : string) (v : list Arg)
  (t : clog.Terminal) :
  clog.out (clog.messagef c fmt v t) =
    clog.out t
      ++ match c with Some c => [clog.ColorSet c] | None => [] end
      ++ [clog.Printf (fmt ++ clog.newline) v; clog.ColorUnset].
Proof. destruct c; simpl; rewrite <- ?app_assoc; reflexivity. Qed.

Lemma themed_level (themes : list string) (level : clog.LogLevel) :
  0 <= level < clog.numLevels ->
  exists c : option clog.Color,
    index (clog.levelMap (clog.themed themes)) level = Some c /\
    (level = clog.NoLevel -> c = None) /\
    (level = clog.WarningLevel \/ level = clog.ErrorLevel ->
     clog.isBold c = true).
Proof.
  intros Hlevel. unfold clog.numLevels in Hlevel.
  destruct (themed_inv themes) as [_ Hlevels].
  cbv [clog.NoLevel clog.WarningLevel clog.ErrorLevel].
  assert (Hcase : level = 0 \/ level = 1 \/ level = 2 \/ level = 3 \/ level = 4)
    by lia.
  destruct Hlevels as [-> | [-> | ->]];
    destruct Hcase as [-> | [-> | [-> | [-> | ->]]]];
    eexists; (split; [reflexivity|]);
    (split; [intros H; first [discriminate H | reflexivity]|]);
    intros [H | H]; first [discriminate H | reflexivity].
Qed.

Lemma SetTheme_palette (theme : string) :
  clog.levelMap (clog.SetTheme clog.NewConsoleLog theme) = clog.paletteOf theme.
Proof.
  unfold clog.paletteOf.
  destruct (String.eqb_spec theme "light") as [->|Hl]; [reflexivity|].
  destruct (String.eqb_spec theme "dark") as [->|Hd]; [reflexivity|].
  destruct (String.eqb_spec theme "none") as [->|Hn]; [reflexivity|].
  unfold clog.SetTheme.
  rewrite (lookup_unknown theme); [reflexivity | congruence | congruence | congruence].
Qed.

(** The colours in force are those of the last theme set, "light"
    when none was. *)
Lemma themed_palette (themes : list string) :
  clog.levelMap (clog.themed themes)
    = clog.paletteOf (last themes "light"%string).
Proof.
  induction themes as [|theme themes _] using rev_ind; [reflexivity|].
  rewrite last_last. unfold clog.themed. rewrite fold_left_app. simpl.
  destruct (themed_inv themes) as [Hmaps _].
  destruct (SetTheme_levels (fold_left clog.SetTheme themes clog.NewConsoleLog)
                            theme Hmaps) as (_ & -> & _).
  apply SetTheme_palette.
Qed.

(** X21: after any number of theme changes, logging at one of the five
    levels never panics: with [c] the colour of that level in the last
    theme set ("light" when none was, the colours of "none" for an
    unknown name), [Log] and [Logf] set [c] if it is not nil, print the
    values once and always end by unsetting the colour; [NoLevel] has
    no colour and Warning and Error are bold in every theme. *)
Theorem Log_in_range (themes : list string) (level : clog.LogLevel)
  (fmt : string) (v : list Arg) (t : clog.Terminal) :
  0 <= level < clog.numLevels ->
  exists (c : option clog.Color) (t1 t2 : clog.Terminal),
    index (clog.paletteOf (last themes "light"%string)) level = Some c /\
    clog.Log (clog.themed themes) level v t = Some t1 /\
    clog.Logf (clog.themed themes) level fmt v t = Some t2 /\
    clog.out t1 =
      clog.out t
        ++ match c with Some c => [clog.ColorSet c] | None => [] end
        ++ [clog.Println v; clog.ColorUnset] /\
    clog.out t2 =
      clog.out t
        ++ match c with Some c => [clog.ColorSet c] | None => [] end
        ++ [clog.Printf (fmt ++ clog.newline) v; clog.ColorUnset] /\
    clog.NoColor t1 = clog.NoColor t /\
    clog.NoColor t2 = clog.NoColor t /\
    (level = clog.NoLevel -> c = None) /\
    (level = clog.WarningLevel \/ level = clog.ErrorLevel ->
     clog.isBold c = true).
Proof.
  intros Hlevel.
  destruct (themed_level themes level Hlevel) as (c & Hc & Hno & Hbold).
  exists c, (clog.message c v t), (clog.messagef c fmt v t).
  unfold clog.Log, clog.Logf. rewrite Hc.
  split; [rewrite <- themed_palette; exact Hc|].
  split; [reflexivity|]. split; [reflexivity|].
  split; [apply message_out|]. split; [apply messagef_out|].
  split; [destruct c; reflexivity|]. split; [destruct c; reflexivity|].
  split; assumption.
Qed.

Lemma Log_in_range_witness :
  exists t1 t2,
    clog.Warning (clog.themed ["dark"%string]) [ArgS "low disk"]
      {| clog.NoColor := false; clog.out := [] |} = Some t1 /\
    clog.out t1 =
      [clog.ColorSet [clog.FgHiMagenta; clog.Bold];
       clog.Println [ArgS "low disk"]; clog.ColorUnset] /\
    clog.Debug (clog.themed ["dark"%string]) [ArgS "tick"]
      {| clog.NoColor := false; clog.out := [] |} = Some t2 /\
    clog.out t2 =
      [clog.ColorSet [clog.FgHiGreen];
       clog.Println [ArgS "tick"]; clog.ColorUnset].
Proof.
  destruct (Log_in_range ["dark"%string] clog.WarningLevel EmptyString
              [ArgS "low disk"] {| clog.NoColor := false; clog.out := [] |})
    as (c & t1 & t1' & Hc & H1 & _ & Hout & _);
    [unfold clog.WarningLevel, clog.numLevels; lia|].
  destruct (Log_in_range ["dark"%string] clog.DebugLevel EmptyString
              [ArgS "tick"] {| clog.NoColor := false; clog.out := [] |})
    as (c' & t2 & t2' & Hc' & H2 & _ & Hout' & _);
    [unfold clog.DebugLevel, clog.numLevels; lia|].
  exists t1, t2.
  vm_compute in Hc. injection Hc as <-.
  vm_compute in Hc'. injection Hc' as <-.
  split; [exact H1|]. split; [exact Hout|]. split; [exact H2 | exact Hout'].
Defined.

(** X22: a level outside the five declared ones makes [Log] and [Logf]
    panic, whatever the theme: the level indexes the array of colours
    directly. *)
Theorem Log_out_of_range (themes : list string) (level : clog.LogLevel)
  (fmt : string) (v : list Arg) (t : clog.Terminal) :
  ~ (0 <= level < clog.numLevels) ->
  clog.Log (clog.themed themes) level v t = None /\
  clog.Logf (clog.themed themes) level fmt v t = None.
Proof.
  intros Hlevel. unfold clog.numLevels in Hlevel.
  assert (Hidx : index (clog.levelMap (clog.themed themes)) level = None).
  { unfold index. destruct (Z.ltb_spec level 0) as [|Hpos]; [reflexivity|].
    apply nth_error_None.
    destruct (themed_inv themes) as [_ [-> | [-> | ->]]]; simpl; lia. }
  unfold clog.Log, clog.Logf. rewrite Hidx. split; reflexivity.
Qed.

Lemma Log_out_of_range_witness :
  clog.Log clog.NewConsoleLog 5 [] {| clog.NoColor := false; clog.out := [] |}
    = None.
Proof.
  destruct (Log_out_of_range [] 5 EmptyString []
              {| clog.NoColor := false; clog.out := [] |}) as [H _].
  - unfold clog.numLevels. lia.
  - exact H.
Defined.

(** ** Shape of the calendar triggers *)

Section WellFormed.

Variable K : Constants.
Variable Now : nat -> Time.

Lemma wellFormed_addDailyTrigger (schedule : calendar.Event) :
  Safe (fun c => wellFormed c = true) (addDailyTrigger K Now schedule).
Proof.
  unfold addDailyTrigger. apply Safe_bind; [apply Safe_timeNow|]. intros now.
  set (start := calendar.Next schedule now).
  set (recurrences := calendar.GetAllInBetween schedule start _).
  destruct (len recurrences =? 0) eqn:H0; [apply Safe_Warningf|].
  destruct (len recurrences =? 1) eqn:H1.
  - destruct (len_one_singleton _ H1) as [r0 ->]. rewrite index_0.
    repeat safe_step.
  - destruct recurrences as [|r0 rest] eqn:Hrec; [discriminate|].
    change (compileDifferences (r0 :: rest))
      with (Some (differencesOf (r0 :: rest),
                  compactFrom 0 (differencesOf (r0 :: rest)))).
    apply Safe_bind; [apply Safe_orPanic|]. intros dc. simpl snd.
    destruct (len (snd dc) =? 1) eqn:Hc.
    + destruct (len_one_singleton _ Hc) as [c0 ->]. rewrite index_0.
      destruct (getRepetitionDuration_nonempty start (r0 :: rest))
        as (duration & -> & _); [discriminate|].
      repeat safe_step.
    + destruct (len (r0 :: rest) >? maxTriggers K); [apply Safe_Warningf|].
      repeat safe_step.
Qed.

Lemma wellFormed_addWeeklyTrigger (schedule : calendar.Event) :
  Safe (fun c => wellFormed c = true) (addWeeklyTrigger K Now schedule).
Proof.
  unfold addWeeklyTrigger. apply Safe_bind; [apply Safe_timeNow|]. intros now.
  set (start := calendar.Next schedule now).
  set (recurrences := calendar.GetAllInBetween schedule start _).
  destruct (len recurrences =? 0) eqn:H0; [apply Safe_Warningf|].
  destruct (len recurrences =? 1) eqn:H1.
  - destruct (len_one_singleton _ H1) as [r0 ->]. rewrite index_0.
    repeat safe_step.
  - destruct recurrences as [|r0 rest] eqn:Hrec; [discriminate|].
    change (compileDifferences (r0 :: rest))
      with (Some (differencesOf (r0 :: rest),
                  compactFrom 0 (differencesOf (r0 :: rest)))).
    apply Safe_bind; [apply Safe_orPanic|]. intros dc. simpl snd.
    destruct (len (snd dc) =? 1) eqn:Hc.
    + destruct (len_one_singleton _ Hc) as [c0 ->]. rewrite index_0.
      destruct (getRepetitionDuration_nonempty start (r0 :: rest))
        as (duration & -> & _); [discriminate|].
      repeat safe_step.
    + destruct (len (r0 :: rest) >? maxTriggers K); [apply Safe_Warningf|].
      repeat safe_step.
Qed.

Lemma wellFormed_addMonthlyTrigger (schedule : calendar.Event) :
  Safe (fun c => wellFormed c = true) (addMonthlyTrigger K Now schedule).
Proof.
  unfold addMonthlyTrigger. apply Safe_bind; [apply Safe_timeNow|]. intros now.
  set (start := calendar.Next schedule now).
  set (recurrences := calendar.GetAllInBetween schedule start _).
  destruct (len recurrences =? 0); [apply Safe_Warningf|].
  destruct (len recurrences >? maxTriggers K); [apply Safe_Warningf|].
  apply Safe_bind; [|intros ?; apply Safe_ret].
  apply Safe_forRange. intros recurrence.
  destruct (calendar.HasValue (calendar.WeekDay schedule)); simpl.
  - destruct (calendar.HasValue (calendar.Day schedule)); repeat safe_step.
  - repeat safe_step.
Qed.

Lemma wellFormed_AddSchedules (schedules : list calendar.Event) :
  Safe (fun c => wellFormed c = true) (AddSchedules K Now schedules).
Proof.
  unfold AddSchedules. apply Safe_bind; [|intros ?; apply Safe_ret].
  apply Safe_forRange. intros schedule.
  destruct (calendar.AsTime schedule) as [triggerOnce|]; [repeat safe_step|].
  destruct (calendar.IsDaily schedule).
  { apply Safe_bind; [apply wellFormed_addDailyTrigger | intros ?; apply Safe_ret]. }
  destruct (calendar.IsWeekly schedule).
  { apply Safe_bind; [apply wellFormed_addWeeklyTrigger | intros ?; apply Safe_ret]. }
  destruct (calendar.IsMonthly schedule).
  { apply Safe_bind; [apply wellFormed_addMonthlyTrigger | intros ?; apply Safe_ret]. }
  repeat safe_step.
Qed.

(** X23: [AddSchedules] keeps the calendar triggers well formed: if
    every calendar trigger of the task has exactly one of the four
    schedules, at interval 1 for the daily and the weekly one, and a
    repetition pattern only with those two, so has every calendar
    trigger after the call. *)
Theorem AddSchedules_wellFormed (schedules : list calendar.Event) (s : State) :
  Forall (fun c => wellFormed c = true)
         (CalendarTriggers (Task_Triggers (task s))) ->
  exists s',
    AddSchedules K Now schedules s = Some (tt, s') /\
    Forall (fun c => wellFormed c = true)
           (CalendarTriggers (Task_Triggers (task s'))).
Proof.
  intros Hwf.
  destruct (wellFormed_AddSchedules schedules s)
    as ([] & s' & ts & cs & ws & Hrun & [_ Hc _ _] & HP).
  exists s'. split; [exact Hrun|]. rewrite Hc. apply Forall_app. auto.
Qed.

(** X24: the monthly synthesizer applies the cap before anything else:
    with more recurrences than [maxTriggers], evenly spaced or not, it
    logs the too-many-triggers warning and leaves the task as it
    was. *)
Theorem monthly_over_cap_warns (schedule : calendar.Event) (s : State) :
  let start := calendar.Next schedule (Now (clock s)) in
  let recurrences :=
    calendar.GetAllInBetween schedule start (Add start (24 * Hour)) in
  recurrences <> [] ->
  maxTriggers K < len recurrences ->
  addMonthlyTrigger K Now schedule s
    = Some (tt, warned s (tooManyTriggersEntry K recurrences)).
Proof.
  intros start recurrences Hne Hcap.
  assert (H0 : (len recurrences =? 0) = false).
  { destruct (len recurrences =? 0) eqn:H0; [|reflexivity].
    apply len_zero_nil in H0. contradiction. }
  exact (addMonthlyTrigger_over_cap K Now schedule s H0 Hcap).
Qed.

End WellFormed.

Lemma AddSchedules_wellFormed_witness :
  exists s',
    AddSchedules exampleConstants (fun _ => 0)
      [exampleEvent true false false anyValue anyValue [3600; 7200; 10800];
       exampleEvent false true false
         {| calendar.HasValue := true; calendar.GetRangeValues := [1] |}
         anyValue [32400]]
      exampleState = Some (tt, s') /\
    Forall (fun c => wellFormed c = true)
           (CalendarTriggers (Task_Triggers (task s'))).
Proof.
  apply (AddSchedules_wellFormed exampleConstants (fun _ => 0)).
  simpl. constructor.
Defined.

Lemma monthly_over_cap_warns_witness :
  addMonthlyTrigger exampleConstants (fun _ => 0)
    (exampleEvent false false true anyValue anyValue [3600; 7200; 10800])
    exampleState
  = Some (tt, warned exampleState
                (tooManyTriggersEntry exampleConstants [3600; 7200; 10800])).
Proof.
  apply (monthly_over_cap_warns exampleConstants (fun _ => 0)
           (exampleEvent false false true anyValue anyValue [3600; 7200; 10800])
           exampleState); [discriminate | vm_compute; reflexivity].
Defined.

(** ** Differences and instants *)

Lemma Sub_exact (t u : Time) :
  minDuration <= (t - u) * Second <= maxDuration ->
  Sub t u = (t - u) * Second.
Proof.
  intros [Hlo Hhi]. unfold Sub.
  destruct (Z.gtb_spec ((t - u) * Second) maxDuration); [lia|].
  destruct (Z.ltb_spec ((t - u) * Second) minDuration); [lia | reflexivity].
Qed.

(** X25: when adjacent instants are less than 2^63 nanoseconds apart,
    the differences [compileDifferences] returns determine the list:
    adding them up from the first instant gives the instants back. *)
Theorem differences_round_trip (r : Time) (rest : list Time) :
  (forall i a b,
      nth_error (r :: rest) i = Some a ->
      nth_error (r :: rest) (S i) = Some b ->
      minDuration <= (b - a) * Second <= maxDuration) ->
  exists differences compact,
    compileDifferences (r :: rest) = Some (differences, compact) /\
    rebuild r differences = r :: rest.
Proof.
  intros Hgap. eexists; eexists. split; [reflexivity|].
  revert r Hgap. induction rest as [|r1 rest IH]; intros r Hgap; [reflexivity|].
  change (differencesOf (r :: r1 :: rest))
    with (Sub r1 r :: differencesOf (r1 :: rest)).
  simpl rebuild.
  rewrite (Sub_exact r1 r) by (apply (Hgap 0%nat); reflexivity).
  replace (r + (r1 - r) * Second / Second) with r1
    by (unfold Second, Nanosecond; rewrite Z.div_mul by lia; lia).
  f_equal. apply IH. intros i a b Ha Hb. apply (Hgap (S i)); assumption.
Qed.

Lemma differences_round_trip_witness :
  rebuild 3600 [3600 * Second; 7200 * Second] = [3600; 7200; 14400].
Proof.
  destruct (differences_round_trip 3600 [7200; 14400])
    as (differences & compact & Hc & Hr).
  - intros [|[|[|i]]] a b Ha Hb; simpl in Ha, Hb;
      try discriminate; injection Ha as <-; injection Hb as <-;
      vm_compute; split; discriminate.
  - injection Hc as <- _. exact Hr.
Defined.

(** ** Actions and schedules do not interfere *)

Lemma Ignores_ret {A : Type} (a : A) : IgnoresActions (ret a).
Proof. intros v s. reflexivity. Qed.

Lemma Ignores_bind {A B : Type} (m : M A) (k : A -> M B) :
  IgnoresActions m -> (forall a, IgnoresActions (k a)) ->
  IgnoresActions (bind m k).
Proof.
  intros Hm Hk v s. unfold bind. rewrite Hm.
  destruct (m s) as [[a s']|]; [apply Hk | reflexivity].
Qed.

Lemma Ignores_orPanic {A : Type} (o : option A) : IgnoresActions (orPanic o).
Proof. intros v s. destruct o; reflexivity. Qed.

Lemma Ignores_Warningf (fmt : string) (a : list Arg) :
  IgnoresActions (Warningf fmt a).
Proof. intros v s. reflexivity. Qed.

Lemma Ignores_timeNow (Now : nat -> Time) : IgnoresActions (timeNow Now).
Proof. intros v s. reflexivity. Qed.

Lemma Ignores_addCalendarTrigger (trigger : CalendarTrigger) :
  IgnoresActions (addCalendarTrigger trigger).
Proof. intros v s. rewrite !addCalendarTrigger_run. reflexivity. Qed.

Lemma Ignores_addTimeTrigger (K : Constants) (triggerOnce : Time) :
  IgnoresActions (addTimeTrigger K triggerOnce).
Proof. intros v s. rewrite !addTimeTrigger_run. reflexivity. Qed.

Lemma Ignores_forRange {A : Type} (body : A -> M Flow) (l : list A) :
  (forall x, IgnoresActions (body x)) -> IgnoresActions (forRange l body).
Proof.
  intros Hbody. induction l as [|x l IH]; simpl.
  - apply Ignores_ret.
  - apply Ignores_bind; [apply Hbody|].
    intros [|]; [exact IH | apply Ignores_ret].
Qed.

Ltac ignores_step :=
  first [ apply Ignores_addCalendarTrigger
        | apply Ignores_addTimeTrigger
        | apply Ignores_ret
        | apply Ignores_Warningf
        | apply Ignores_timeNow
        | apply Ignores_orPanic
        | apply Ignores_forRange; intros ?
        | apply Ignores_bind; [|intros ?]
        | match goal with
          | |- IgnoresActions (if ?c then _ else _) => destruct c
          | |- IgnoresActions (match ?c with _ => _ end) => destruct c
          end ].

Lemma AddExecAction_run (action : ExecAction) (s : State) :
  AddExecAction action s
    = Some (tt, withExec (Exec (Task_Actions (task s)) ++ [action]) s).
Proof.
  unfold AddExecAction, bind, getTask, modifyTask, withExec.
  destruct (Exec (Task_Actions (task s))); reflexivity.
Qed.

Section Independence.

Variable K : Constants.
Variable Now : nat -> Time.

Lemma Ignores_addDailyTrigger (schedule : calendar.Event) :
  IgnoresActions (addDailyTrigger K Now schedule).
Proof.
  unfold addDailyTrigger, tooManyTriggers.
  apply Ignores_bind; [apply Ignores_timeNow|]. intros now. cbv zeta.
  repeat ignores_step.
Qed.

Lemma Ignores_addWeeklyTrigger (schedule : calendar.Event) :
  IgnoresActions (addWeeklyTrigger K Now schedule).
Proof.
  unfold addWeeklyTrigger, tooManyTriggers.
  apply Ignores_bind; [apply Ignores_timeNow|]. intros now. cbv zeta.
  repeat ignores_step.
Qed.

Lemma Ignores_addMonthlyTrigger (schedule : calendar.Event) :
  IgnoresActions (addMonthlyTrigger K Now schedule).
Proof.
  unfold addMonthlyTrigger, tooManyTriggers.
  apply Ignores_bind; [apply Ignores_timeNow|]. intros now. cbv zeta.
  repeat ignores_step.
Qed.

Lemma Ignores_AddSchedules (schedules : list calendar.Event) :
  IgnoresActions (AddSchedules K Now schedules).
Proof.
  unfold AddSchedules. apply Ignores_bind; [|intros ?; apply Ignores_ret].
  apply Ignores_forRange. intros schedule.
  destruct (calendar.AsTime schedule) as [triggerOnce|]; [repeat ignores_step|].
  destruct (calendar.IsDaily schedule).
  { apply Ignores_bind; [apply Ignores_addDailyTrigger | intros ?; apply Ignores_ret]. }
  destruct (calendar.IsWeekly schedule).
  { apply Ignores_bind; [apply Ignores_addWeeklyTrigger | intros ?; apply Ignores_ret]. }
  destruct (calendar.IsMonthly schedule).
  { apply Ignores_bind; [apply Ignores_addMonthlyTrigger | intros ?; apply Ignores_ret]. }
  repeat ignores_step.
Qed.

(** X26: [AddExecAction] and [AddSchedules] can be called in either
    order: the task, the log and the clock end up the same. *)
Theorem actions_and_schedules_commute (action : ExecAction)
  (schedules : list calendar.Event) (s : State) :
  bind (AddExecAction action) (fun _ => AddSchedules K Now schedules) s
  = bind (AddSchedules K Now schedules) (fun _ => AddExecAction action) s.
Proof.
  rewrite (bind_run _ _ s _ tt (AddExecAction_run action s)).
  rewrite Ignores_AddSchedules.
  destruct (Safe_AddSchedules K Now schedules s)
    as ([] & s' & ts & cs & ws & Hrun & [_ _ _ Hf] & _).
  rewrite (bind_run _ _ s s' tt Hrun). rewrite Hrun.
  rewrite AddExecAction_run.
  destruct Hf as (_ & _ & _ & _ & _ & _ & Hactions).
  rewrite Hactions. reflexivity.
Qed.

End Independence.
